(** * IPU PY Treasurer, legacy server: [archive/legacy-versions/server.py]

    A shallow embedding of the request handler [TreasurerHandler]
    ([do_GET], [do_POST]) and of [setup_database], with the properties of
    their specification.

    The handler is effectful Python: it reads the request stream, asks the
    clock, creates a directory, writes a file and writes the response.
    These effects are threaded through a state-and-exception monad over a
    record [world]; an exception leaves the effects that came before it in
    place, as in Python. *)

From Stdlib Require Import ZArith QArith String Ascii List Lia DecimalString.
From Stdlib.Strings Require Import Byte.
From stdpp Require Import base option gmap strings list fin_maps.

Local Open Scope Z_scope.

(** ** Python exceptions the modelled code can raise *)

Inductive exn : Type :=
| TypeError            (* int(None) *)
| ValueError           (* int('abc'), rfile.read(-2) *)
| OverflowError        (* rfile.read(2**63), an int too large for SQLite *)
| FileExistsError      (* mkdir over a regular file *)
| FileNotFoundError    (* parent directory missing *)
| NotADirectoryError   (* parent is a regular file *)
| IsADirectoryError    (* open(..., 'wb') on a directory *)
| OperationalError (msg : string)   (* sqlite3.OperationalError *)
| IntegrityError (msg : string).    (* sqlite3.IntegrityError *)

Inductive result (A : Type) : Type :=
| Ok (a : A)
| Raise (e : exn).
Arguments Ok {A} a.
Arguments Raise {A} e.

#[export] Instance result_ret : MRet result := λ A a, Ok a.
#[export] Instance result_bind : MBind result := λ A B f m,
  match m with
  | Ok a => f a
  | Raise e => Raise e
  end.

(** ** The world of one request *)

(** An entry of the working directory. *)
Inductive node : Type :=
| File (content : list byte)
| Dir.

(** A [pathlib.Path] relative to the working directory, as its parts;
    [[]] is the working directory itself. *)
Definition Path : Type := list string.

(** What the handler hands to the HTTP layer, in order.  [send_response]
    also emits the library's own [Server] and [Date] header lines; they do
    not depend on the handler and are left out. *)
Inductive wire : Type :=
| StatusLine (code : Z)
| HeaderLine (name value : string)
| EndHeaders
| Payload (data : list byte).

(** [datetime.datetime], as returned by [datetime.now()]. *)
Record datetime : Type := mkDatetime {
  year : nat; month : nat; day : nat;
  hour : nat; minute : nat; second : nat;
  microsecond : nat
}.

(** The first five fields are the attributes of [self] that the handler
    touches; [now] is the reading of the clock during the call and [fs] the
    entries below the working directory.  [rfile] holds the bytes of the
    request stream not read yet, up to its end. *)
Record world : Type := mkWorld {
  path : string;
  headers : list (string * string);
  rfile : list byte;
  headers_buffer : list wire;
  wfile : list wire;
  now : datetime;
  fs : gmap Path node
}.

Definition set_path (p : string) (w : world) : world :=
  mkWorld p (headers w) (rfile w) (headers_buffer w) (wfile w) (now w) (fs w).
Definition set_rfile (r : list byte) (w : world) : world :=
  mkWorld (path w) (headers w) r (headers_buffer w) (wfile w) (now w) (fs w).
Definition set_headers_buffer (b : list wire) (w : world) : world :=
  mkWorld (path w) (headers w) (rfile w) b (wfile w) (now w) (fs w).
Definition set_wfile (o : list wire) (w : world) : world :=
  mkWorld (path w) (headers w) (rfile w) (headers_buffer w) o (now w) (fs w).
Definition set_fs (f : gmap Path node) (w : world) : world :=
  mkWorld (path w) (headers w) (rfile w) (headers_buffer w) (wfile w) (now w) f.

(** ** The monad *)

Definition M (A : Type) : Type := world → result A * world.

#[export] Instance M_ret : MRet M := λ A a w, (Ok a, w).
#[export] Instance M_bind : MBind M := λ A B f m w,
  match m w with
  | (Ok a, w') => f a w'
  | (Raise e, w') => (Raise e, w')
  end.

Definition raise {A : Type} (e : exn) : M A := λ w, (Raise e, w).
Definition gets {A : Type} (f : world → A) : M A := λ w, (Ok (f w), w).
Definition modify (f : world → world) : M unit := λ w, (Ok tt, f w).

(** ** Builtins and library calls used by the handler *)

Module Py.

(** *** [int(str)] in base 10

    CPython first maps the text to ASCII
    ([_PyUnicode_TransformDecimalAndSpaceToASCII]): characters below 127
    stay, white space above becomes a blank, anything else that is not a
    decimal digit becomes [?] and ends the text.  Header text is Latin-1,
    where the only white space above 127 is U+0085 and U+00A0 and there
    are no decimal digits above 127.  [PyLong_FromString] then skips
    white space, takes an optional sign, digits with single underscores
    between them, trailing white space, and requires the end.  Since
    CPython 3.11 a text with more than 4300 digit characters, leading zeros
    counted and underscores not, is refused ([sys.int_info]; the source
    does not change the limit). *)

Definition max_str_digits : Z := 4300.

Definition is_space (c : ascii) : bool :=
  let n := nat_of_ascii c in
  ((9 <=? n)%nat && (n <=? 13)%nat) || (n =? 32)%nat.

Definition is_digit (c : ascii) : bool :=
  let n := nat_of_ascii c in (48 <=? n)%nat && (n <=? 57)%nat.

Definition digit_val (c : ascii) : Z := Z.of_nat (nat_of_ascii c - 48).

Fixpoint transform_decimal_and_space (s : string) : string :=
  match s with
  | EmptyString => EmptyString
  | String c s' =>
      let n := nat_of_ascii c in
      if (n <? 127)%nat then String c (transform_decimal_and_space s')
      else if (n =? 133)%nat || (n =? 160)%nat
           then String " " (transform_decimal_and_space s')
           else String "?" EmptyString
  end.

Fixpoint skip_space (s : string) : string :=
  match s with
  | String c s' => if is_space c then skip_space s' else s
  | EmptyString => s
  end.

(** Digits and underscores; [count] is the number of digits so far and
    [prev_us] says the previous character was an underscore.  Two
    underscores in a row or one at the end are errors. *)
Fixpoint scan_digits (s : string) (acc count : Z) (prev_us : bool)
    : option (Z * Z * string) :=
  match s with
  | String c s' =>
      if is_digit c then scan_digits s' (10 * acc + digit_val c) (count + 1) false
      else if Ascii.eqb c "_"
           then (if prev_us then None else scan_digits s' acc count true)
           else (if prev_us then None else Some (acc, count, s))
  | EmptyString => if prev_us then None else Some (acc, count, s)
  end.

Definition split_sign (s : string) : bool * string :=
  match s with
  | String c r =>
      if Ascii.eqb c "-" then (true, r)
      else if Ascii.eqb c "+" then (false, r)
      else (false, s)
  | EmptyString => (false, s)
  end.

Definition int (s : string) : option Z :=
  let '(neg, body) := split_sign (skip_space (transform_decimal_and_space s)) in
  match body with
  | String c _ =>
      if is_digit c then
        match scan_digits body 0 0 false with
        | Some (v, count, rest) =>
            if max_str_digits <? count then None
            else
              match skip_space rest with
              | EmptyString => Some (if neg then - v else v)
              | String _ _ => None
              end
        | None => None
        end
      else None
  | EmptyString => None
  end.

(** *** [str.lower] on ASCII letters (header names are ASCII tokens) *)

Definition lower_char (c : ascii) : ascii :=
  let n := nat_of_ascii c in
  if (65 <=? n)%nat && (n <=? 90)%nat then ascii_of_nat (n + 32) else c.

Fixpoint lower (s : string) : string :=
  match s with
  | EmptyString => EmptyString
  | String c s' => String (lower_char c) (lower s')
  end.

(** *** [email.message.Message.get]: first header of that name, names
    compared in lower case. *)

Fixpoint message_get (name : string) (hs : list (string * string)) : option string :=
  match hs with
  | [] => None
  | (k, v) :: hs' =>
      if String.eqb (lower k) (lower name) then Some v else message_get name hs'
  end.

(** *** [datetime.strftime] for the directives [%Y %m %d %H %M %S]

    Each directive is a zero-padded decimal of fixed width.  ([%Y] of a
    year below 1000 is padded on some platforms and not on others; the
    clock of a running server never reads such a year.) *)

Definition digit_char (n : nat) : ascii := ascii_of_nat (48 + n mod 10).

(** The last [width] decimal digits of [n], zero padded. *)
Fixpoint zero_pad (width n : nat) : string :=
  match width with
  | O => EmptyString
  | S width' => zero_pad width' (n / 10) +:+ String (digit_char n) EmptyString
  end.

Definition directive (c : ascii) (t : datetime) : string :=
  if Ascii.eqb c "Y" then zero_pad 4 (year t)
  else if Ascii.eqb c "m" then zero_pad 2 (month t)
  else if Ascii.eqb c "d" then zero_pad 2 (day t)
  else if Ascii.eqb c "H" then zero_pad 2 (hour t)
  else if Ascii.eqb c "M" then zero_pad 2 (minute t)
  else if Ascii.eqb c "S" then zero_pad 2 (second t)
  else String "%" (String c EmptyString).

Fixpoint strftime (fmt : string) (t : datetime) : string :=
  match fmt with
  | String c fmt' =>
      if Ascii.eqb c "%" then
        match fmt' with
        | String d rest => directive d t +:+ strftime rest t
        | EmptyString => String c EmptyString
        end
      else String c (strftime fmt' t)
  | EmptyString => EmptyString
  end.

(** *** [json.dumps] of a dict of strings, default separators,
    [ensure_ascii=True] *)

Definition hex_char (n : nat) : ascii :=
  let d := (n mod 16)%nat in
  if (d <? 10)%nat then ascii_of_nat (48 + d) else ascii_of_nat (87 + d).

Definition backslash : ascii := "092"%char.
Definition dquote : ascii := "034"%char.

Definition escape_char (c : ascii) : string :=
  let n := nat_of_ascii c in
  if (n =? 34)%nat then String backslash (String dquote EmptyString)
  else if (n =? 92)%nat then String backslash (String backslash EmptyString)
  else if (n =? 10)%nat then String backslash "n"
  else if (n =? 13)%nat then String backslash "r"
  else if (n =? 9)%nat then String backslash "t"
  else if (n =? 8)%nat then String backslash "b"
  else if (n =? 12)%nat then String backslash "f"
  else if (32 <=? n)%nat && (n <=? 126)%nat then String c EmptyString
  else String backslash
         (String "u" (String "0" (String "0"
            (String (hex_char (n / 16)) (String (hex_char n) EmptyString))))).

Fixpoint escape (s : string) : string :=
  match s with
  | EmptyString => EmptyString
  | String c s' => escape_char c +:+ escape s'
  end.

Definition json_string (s : string) : string :=
  String dquote (escape s) +:+ String dquote EmptyString.

Fixpoint json_items (d : list (string * string)) : string :=
  match d with
  | [] => EmptyString
  | [(k, v)] => json_string k +:+ ": " +:+ json_string v
  | (k, v) :: d' => json_string k +:+ ": " +:+ json_string v +:+ ", " +:+ json_items d'
  end.

Definition json_dumps (d : list (string * string)) : string :=
  "{" +:+ json_items d +:+ "}".

(** [str.encode()]: the text [json_dumps] produces is ASCII, one byte
    per character. *)
Definition encode (s : string) : list byte := list_byte_of_string s.

(** [str(path)] on POSIX: the parts joined by a slash. *)
Fixpoint str_path (p : Path) : string :=
  match p with
  | [] => "."
  | [a] => a
  | a :: p' => a +:+ "/" +:+ str_path p'
  end.

End Py.

(** ** Primitives of the handler *)

(** [self.headers[name]]: [None] when the header is absent. *)
Definition headers_getitem (name : string) : M (option string) :=
  gets (λ w, Py.message_get name (headers w)).

(** [int(x)] for [x] a [str] or [None]. *)
Definition int (x : option string) : M Z :=
  match x with
  | None => raise TypeError
  | Some s =>
      match Py.int s with
      | Some n => mret n
      | None => raise ValueError
      end
  end.

(** The range of [Py_ssize_t] on a 64-bit build. *)
Definition ssize_t_max : Z := 2 ^ 63 - 1.
Definition ssize_t_min : Z := - 2 ^ 63.

(** [self.rfile.read(n)] on the buffered reader of the connection.  The
    argument is first converted to [Py_ssize_t], which fails with
    [OverflowError] outside its range.  Then: up to [n] bytes, fewer only
    when the stream ends first; everything up to the end for [-1]; a
    [ValueError] below that.  A stream that stays open without sending the
    missing bytes would block the call for ever; [rfile] is the content of
    a stream that ends.  The reader allocates its result before it reads:
    memory is taken to suffice for a length in range. *)
Definition rfile_read (n : Z) : M (list byte) := λ w,
  if (n <? ssize_t_min) || (ssize_t_max <? n) then (Raise OverflowError, w)
  else if n <? -1 then (Raise ValueError, w)
  else if n =? -1 then (Ok (rfile w), set_rfile [] w)
  else (Ok (take (Z.to_nat n) (rfile w)),
        set_rfile (drop (Z.to_nat n) (rfile w)) w).

Definition datetime_now : M datetime := gets now.

Definition fs_lookup (f : gmap Path node) (p : Path) : option node :=
  match p with
  | [] => Some Dir
  | _ :: _ => f !! p
  end.

Definition parent (p : Path) : Path := removelast p.

(** [Path.mkdir(exist_ok=...)] with [parents=False]. *)
Definition Path_mkdir (exist_ok : bool) (p : Path) : M unit := λ w,
  match fs_lookup (fs w) (parent p) with
  | None => (Raise FileNotFoundError, w)
  | Some (File _) => (Raise NotADirectoryError, w)
  | Some Dir =>
      match fs_lookup (fs w) p with
      | None => (Ok tt, set_fs (<[p := Dir]> (fs w)) w)
      | Some Dir => if exist_ok then (Ok tt, w) else (Raise FileExistsError, w)
      | Some (File _) => (Raise FileExistsError, w)
      end
  end.

(** [open(p, 'wb')]: creates the file or empties it; the handle is the
    path. *)
Definition open_wb (p : Path) : M Path := λ w,
  match fs_lookup (fs w) (parent p) with
  | None => (Raise FileNotFoundError, w)
  | Some (File _) => (Raise NotADirectoryError, w)
  | Some Dir =>
      match fs_lookup (fs w) p with
      | Some Dir => (Raise IsADirectoryError, w)
      | Some (File _) | None => (Ok p, set_fs (<[p := File []]> (fs w)) w)
      end
  end.

(** [f.write(data)], at the end of what the handle wrote so far. *)
Definition file_write (f : Path) (data : list byte) : M unit :=
  modify (λ w,
    match fs w !! f with
    | Some (File old) => set_fs (<[f := File (old ++ data)]> (fs w)) w
    | Some Dir | None => w
    end).

(** [send_response]: the status line goes to the header buffer.  (It also
    logs the request to standard error.) *)
Definition send_response (code : Z) : M unit :=
  modify (λ w, set_headers_buffer (headers_buffer w ++ [StatusLine code]) w).

Definition send_header (keyword value : string) : M unit :=
  modify (λ w, set_headers_buffer (headers_buffer w ++ [HeaderLine keyword value]) w).

(** [end_headers]: closes the header block and flushes the buffer. *)
Definition end_headers : M unit :=
  modify (λ w,
    set_headers_buffer []
      (set_wfile (wfile w ++ headers_buffer w ++ [EndHeaders]) w)).

Definition wfile_write (data : list byte) : M unit :=
  modify (λ w, set_wfile (wfile w ++ [Payload data]) w).

(** ** [TreasurerHandler] *)

Definition upload_route : string := "/api/upload".
Definition timestamp_format : string := "%Y%m%d_%H%M%S".
Definition uploads_dir : Path := ["uploads"].

(** [uploads_dir / f"informe_{timestamp}.jpg"] *)
Definition file_path_at (t : datetime) : Path :=
  uploads_dir ++ ["informe_" +:+ Py.strftime timestamp_format t +:+ ".jpg"].

Definition do_POST : M unit :=
  p ← gets path;
  if String.eqb p upload_route then
    h ← headers_getitem "Content-Length";
    content_length ← int h;
    post_data ← rfile_read content_length;
    t ← datetime_now;
    Path_mkdir true uploads_dir;;
    let file_path := file_path_at t in
    f ← open_wb file_path;
    file_write f post_data;;
    send_response 200;;
    send_header "Content-type" "application/json";;
    end_headers;;
    let response := [("status", "success"); ("file", Py.str_path file_path)] in
    wfile_write (Py.encode (Py.json_dumps response))
  else
    send_response 404;;
    end_headers.

Section Dispatcher.

(** The static file server of the standard library, which [do_GET]
    delegates to: a computation on the same handler. *)
Variable SimpleHTTPRequestHandler_do_GET : M unit.

Definition do_GET : M unit :=
  p ← gets path;
  (if String.eqb p "/" then modify (set_path "/index.html") else mret tt);;
  SimpleHTTPRequestHandler_do_GET.

End Dispatcher.


(** ** Running the handler *)

(** The file system can take an upload at time [t]: [uploads] is absent or
    a directory and the target is not a directory.  (Section 7 of the
    specification files everything else under "filesystem failure", a
    fault the handler does not handle.) *)
Definition storage_ready (t : datetime) (f : gmap Path node) : bool :=
  match f !! uploads_dir with
  | Some (File _) => false
  | Some Dir | None =>
      match f !! file_path_at t with
      | Some Dir => false
      | Some (File _) | None => true
      end
  end.

(** The response to a stored upload, as the handler sends it. *)
Definition success_response (t : datetime) : list wire :=
  [ StatusLine 200;
    HeaderLine "Content-type" "application/json";
    EndHeaders;
    Payload (Py.encode (Py.json_dumps
      [("status", "success"); ("file", Py.str_path (file_path_at t))])) ].

(** The bytes [rfile.read(n)] returns, for [n >= -1]. *)
Definition read_bytes (n : Z) (stream : list byte) : list byte :=
  if n =? -1 then stream else take (Z.to_nat n) stream.

Definition unread_bytes (n : Z) (stream : list byte) : list byte :=
  if n =? -1 then [] else drop (Z.to_nat n) stream.

(** The world a stored upload of declared length [n] leaves behind. *)
Definition upload_done (n : Z) (w : world) : world :=
  mkWorld (path w) (headers w) (unread_bytes n (rfile w)) []
          (wfile w ++ headers_buffer w ++ success_response (now w))
          (now w)
          (<[file_path_at (now w) := File (read_bytes n (rfile w))]>
             (<[uploads_dir := Dir]> (fs w))).

(** The world the catch-all branch leaves behind. *)
Definition not_found_done (w : world) : world :=
  mkWorld (path w) (headers w) (rfile w) []
          (wfile w ++ headers_buffer w ++ [StatusLine 404; EndHeaders])
          (now w) (fs w).


(** ** The relational store

    The store is an SQLite file.  The source gives the two [CREATE TABLE]
    statements; the engine that runs them, and the [INSERT]s that the data
    model expects from the submission of churches and reports, is SQLite
    itself, modelled here by what it documents for the things these tables
    declare: the type affinity of a column, [NOT NULL], the integer primary
    key with [AUTOINCREMENT], the column default, and the foreign key,
    which the engine checks only on a connection whose pragma
    [foreign_keys] is on.

    The file of the model holds tables, each under the name it was
    declared with, and nothing else: indexes and views, whose names a
    [CREATE TABLE] can clash with, are outside it.  The values of a
    statement are the ones Python binds to it: [None], an [int], a finite
    [float], a [str]. *)

Module Sqlite.

(** Storage classes.  A [REAL] is the rational it denotes; an [INTEGER] of
    the engine has 64 bits. *)
Inductive value : Type :=
| Null
| Integer (n : Z)
| Real (q : Q)
| Text (s : string).

Definition int64_max : Z := 2 ^ 63 - 1.
Definition int64_min : Z := - 2 ^ 63.

(** The two routines of the engine that go between texts and floating
    point numbers, which the affinity of a column calls on: the reading of
    a text as a number (nothing when the text is not a well-formed
    literal, an integer when it is one that fits 64 bits, else a real),
    and the writing of a real as text.  They are parameters of the model:
    what is proved of the store holds for every choice of them. *)
Class Numerics : Type := {
  number_of_text : string → option (Z + Q);
  text_of_real : Q → string
}.

Inductive affinity : Type :=
| TextAff
| NumericAff
| IntegerAff
| RealAff
| BlobAff.

Inductive default_clause : Type :=
| NoDefault
| CurrentTimestamp.

Record column : Type := mkColumn {
  col_name : string;
  col_type : string;
  col_not_null : bool;
  col_primary_key : bool;
  col_autoincrement : bool;
  col_default : default_clause
}.

Record foreign_key : Type := mkForeignKey {
  fk_column : string;
  fk_table : string;
  fk_parent_column : string
}.

Record table_def : Type := mkTableDef {
  columns : list column;
  foreign_keys : list foreign_key
}.

Definition row : Type := list value.

(** A table of the file: its definition, its rows in insertion order,
    and its entry in [sqlite_sequence] (largest rowid ever used). *)
Record table : Type := mkTable {
  definition : table_def;
  rows : list row;
  sequence : Z
}.

(** A connection: the pragma [foreign_keys] and the content of the file
    it is open on. *)
Record connection : Type := mkConnection {
  enforce_foreign_keys : bool;
  file : gmap string table
}.

Inductive statement : Type :=
| CreateTable (if_not_exists : bool) (name : string) (d : table_def)
| Insert (name : string) (assignments : list (string * value))
| PragmaForeignKeys (on : bool).

(** *** Names *)

Definition lower_case_char (c : ascii) : ascii :=
  let n := nat_of_ascii c in
  if (65 <=? n)%nat && (n <=? 90)%nat then ascii_of_nat (n + 32) else c.

Fixpoint lower_case (s : string) : string :=
  match s with
  | EmptyString => EmptyString
  | String c s' => String (lower_case_char c) (lower_case s')
  end.

(** The engine compares the names of columns and the words of a declared
    type without regard to the case of the ASCII letters. *)
Definition name_eqb (a b : string) : bool :=
  String.eqb (lower_case a) (lower_case b).

Fixpoint has_prefix (p s : string) : bool :=
  match p, s with
  | EmptyString, _ => true
  | String a p', String b s' => Ascii.eqb a b && has_prefix p' s'
  | String _ _, EmptyString => false
  end.

Fixpoint has_infix (p s : string) : bool :=
  match s with
  | EmptyString => has_prefix p s
  | String _ s' => has_prefix p s || has_infix p s'
  end.

(** *** Values *)

Definition is_null (v : value) : bool :=
  match v with Null => true | _ => false end.

(** Equality of two keys; [NULL] equals nothing. *)
Definition value_eqb (a b : value) : bool :=
  match a, b with
  | Integer m, Integer n => m =? n
  | Real p, Real q => Qeq_bool p q
  | Integer m, Real q | Real q, Integer m => Qeq_bool (inject_Z m) q
  | Text s, Text t => String.eqb s t
  | _, _ => false
  end.

(** An [int] that the Python binding cannot hand to the engine. *)
Definition unbindable (v : value) : bool :=
  match v with
  | Integer n => (n <? int64_min) || (int64_max <? n)
  | Null | Real _ | Text _ => false
  end.

(** *** Type affinity *)

(** The affinity of a column, from its declared type, by the engine's five
    rules in their order. *)
Definition affinity_of (declared : string) : affinity :=
  let d := lower_case declared in
  if has_infix "int" d then IntegerAff
  else if has_infix "char" d || has_infix "clob" d || has_infix "text" d
  then TextAff
  else if has_infix "blob" d || String.eqb d EmptyString then BlobAff
  else if has_infix "real" d || has_infix "floa" d || has_infix "doub" d
  then RealAff
  else NumericAff.

(** The characters a numeric literal is made of: digits, white space, the
    signs, the point and the letter of the exponent.  A text with any
    other character in it is no number. *)
Definition numeric_char (c : ascii) : bool :=
  let n := nat_of_ascii c in
  ((48 <=? n)%nat && (n <=? 57)%nat)
  || ((9 <=? n)%nat && (n <=? 13)%nat) || (n =? 32)%nat
  || (n =? 43)%nat || (n =? 45)%nat || (n =? 46)%nat
  || (n =? 69)%nat || (n =? 101)%nat.

Definition looks_numeric (s : string) : bool :=
  forallb numeric_char (list_ascii_of_string s).

Definition numeric_text {N : Numerics} (s : string) : option (Z + Q) :=
  if looks_numeric s then number_of_text s else None.

(** A real that is a whole number strictly inside the 64-bit range is kept
    as that integer. *)
Definition integer_if_exact (q : Q) : value :=
  let i := Z.quot (Qnum q) (Zpos (Qden q)) in
  if Qeq_bool q (inject_Z i) && (int64_min <? i) && (i <? int64_max)
  then Integer i else Real q.

(** An integer as a double: exact up to 53 bits, beyond that rounded to
    the nearest, ties to even. *)
Definition real_of_integer (n : Z) : Q :=
  let a := Z.abs n in
  let shift := Z.log2 a + 1 - 53 in
  if shift <=? 0 then inject_Z n
  else
    let unit := 2 ^ shift in
    let q := a / unit in
    let r := a mod unit in
    let half := unit / 2 in
    let q' := if (half <? r) || ((r =? half) && Z.odd q) then q + 1 else q in
    inject_Z (Z.sgn n * q' * unit).

(** What a column of affinity [aff] stores for the value [v]. *)
Definition apply_affinity {N : Numerics} (aff : affinity) (v : value) : value :=
  match aff, v with
  | TextAff, Integer n => Text (NilZero.string_of_int (Z.to_int n))
  | TextAff, Real q => Text (text_of_real q)
  | (NumericAff | IntegerAff), Real q => integer_if_exact q
  | (NumericAff | IntegerAff), Text s =>
      match numeric_text s with
      | Some (inl n) => Integer n
      | Some (inr q) => integer_if_exact q
      | None => Text s
      end
  | RealAff, Integer n => Real (real_of_integer n)
  | RealAff, Text s =>
      match numeric_text s with
      | Some (inl n) => Real (real_of_integer n)
      | Some (inr q) => Real q
      | None => Text s
      end
  | _, _ => v
  end.

(** *** Rows *)

Fixpoint column_index (name : string) (cols : list column) : option nat :=
  match cols with
  | [] => None
  | c :: cols' =>
      if name_eqb (col_name c) name then Some O
      else S <$> column_index name cols'
  end.

(** The value a row holds in the column [name]. *)
Definition field (d : table_def) (name : string) (r : row) : value :=
  match column_index name (columns d) with
  | Some i => nth i r Null
  | None => Null
  end.

Fixpoint assigned (name : string) (a : list (string * value)) : option value :=
  match a with
  | [] => None
  | (k, v) :: a' => if name_eqb k name then Some v else assigned name a'
  end.

(** The value of a column as the statement has it: the one it gives, else
    the default, else [NULL]. *)
Definition initial_value (clock : string) (a : list (string * value)) (c : column) : value :=
  match assigned (col_name c) a with
  | Some v => v
  | None =>
      match col_default c with
      | CurrentTimestamp => Text clock
      | NoDefault => Null
      end
  end.

(** The value a column stores: the one of the statement, under the
    affinity of the column. *)
Definition stored {N : Numerics} (clock : string) (a : list (string * value))
    (c : column) : value :=
  apply_affinity (affinity_of (col_type c)) (initial_value clock a c).

(** [INTEGER PRIMARY KEY]: the column is the rowid. *)
Definition is_rowid (c : column) : bool :=
  col_primary_key c && name_eqb (col_type c) "INTEGER".

Definition rowid_column (d : table_def) : option string :=
  col_name <$> List.find is_rowid (columns d).

Definition rowid_of (d : table_def) (r : row) : value :=
  match rowid_column d with
  | Some c => field d c r
  | None => Null
  end.

(** The largest rowid in the table, none in a table without rows. *)
Definition largest_rowid (t : table) : option Z :=
  fold_right
    (λ r acc, match rowid_of (definition t) r with
              | Integer n => Some (match acc with
                                   | Some m => Z.max n m
                                   | None => n
                                   end)
              | _ => acc
              end)
    None (rows t).

Definition autoincrement (d : table_def) : bool :=
  existsb (λ c, is_rowid c && col_autoincrement c) (columns d).

(** The rowid for a row that brings none: one more than the largest in
    the table, 1 in a table without rows; with [AUTOINCREMENT], no less
    than one more than the largest ever used. *)
Definition next_rowid (t : table) : Z :=
  let v := match largest_rowid t with
           | Some m => m + 1
           | None => 1
           end in
  if autoincrement (definition t) then Z.max v (sequence t + 1) else v.

(** There is a rowid left: the largest of 64 bits is not in use and, with
    [AUTOINCREMENT], never was. *)
Definition has_room (t : table) : bool :=
  match largest_rowid t with
  | Some m => m <? int64_max
  | None => true
  end
  && (negb (autoincrement (definition t)) || (sequence t <? int64_max)).

(** When none is left the table is full.  (Without [AUTOINCREMENT] the
    engine would first try rowids at random; the two tables of the source
    have it.) *)
Definition assignable_rowid (t : table) : result Z :=
  if has_room t then Ok (next_rowid t)
  else Raise (OperationalError "database or disk is full").

(** Fills the rowid when the statement leaves it [NULL]; a rowid that is
    no integer, its affinity applied, is a mismatch. *)
Fixpoint fill_rowid (next : result Z) (cols : list column) (r : row) : result row :=
  match cols, r with
  | c :: cols', v :: r' =>
      r'' ← fill_rowid next cols' r';
      if is_rowid c then
        match v with
        | Null => n ← next; Ok (Integer n :: r'')
        | Integer n => Ok (Integer n :: r'')
        | Real _ | Text _ => Raise (IntegrityError "datatype mismatch")
        end
      else Ok (v :: r'')
  | _, _ => Ok []
  end.

Fixpoint not_null_violation (cols : list column) (r : row) : option string :=
  match cols, r with
  | c :: cols', v :: r' =>
      if col_not_null c && is_null v then Some (col_name c)
      else not_null_violation cols' r'
  | _, _ => None
  end.

Definition rowid_taken (t : table) (r : row) : bool :=
  existsb (λ r', value_eqb (rowid_of (definition t) r') (rowid_of (definition t) r))
          (rows t).

(** Does some row of the parent table carry the key [v]? *)
Definition parent_has (parent : table) (column : string) (v : value) : bool :=
  existsb (λ r, value_eqb (field (definition parent) column r) v) (rows parent).

(** The check of one foreign key of [d] on a new row. *)
Definition foreign_key_ok (db : gmap string table) (d : table_def) (r : row)
    (k : foreign_key) : bool :=
  let v := field d (fk_column k) r in
  is_null v ||
  match db !! fk_table k with
  | Some parent => parent_has parent (fk_parent_column k) v
  | None => false
  end.

Definition unknown_column (d : table_def) (a : list (string * value)) : option string :=
  fst <$> List.find (λ kv, negb (bool_decide (is_Some (column_index (fst kv) (columns d))))) a.

(** *** Statements *)

(** [CREATE TABLE]: the name is free, or taken by a table. *)
Definition create_table (if_not_exists : bool) (name : string) (d : table_def)
    (db : gmap string table) : result (gmap string table) :=
  match db !! name with
  | Some _ =>
      if if_not_exists then Ok db
      else Raise (OperationalError ("table " +:+ name +:+ " already exists"))
  | None => Ok (<[name := mkTable d [] 0]> db)
  end.

(** [INSERT INTO name (columns of a) VALUES (?, ...)] with the values of
    [a] bound, in the order things happen: the table and the columns are
    looked up when the statement is prepared; the values are bound; then
    each takes the affinity of its column and the engine sees to the
    rowid, to [NOT NULL], to the uniqueness of the rowid and, only when the
    connection has the pragma on, to the foreign keys.  A failed statement
    leaves the file as it was. *)
Definition insert {N : Numerics} (clock : string) (enforce : bool) (name : string)
    (a : list (string * value)) (db : gmap string table)
    : result (gmap string table) :=
  match db !! name with
  | None => Raise (OperationalError ("no such table: " +:+ name))
  | Some t =>
      let d := definition t in
      match unknown_column d a with
      | Some c =>
          Raise (OperationalError
                   ("table " +:+ name +:+ " has no column named " +:+ c))
      | None =>
          if existsb unbindable (map snd a) then Raise OverflowError
          else
            r ← fill_rowid (assignable_rowid t) (columns d)
                  (map (stored clock a) (columns d));
            match not_null_violation (columns d) r with
            | Some c =>
                Raise (IntegrityError
                         ("NOT NULL constraint failed: " +:+ name +:+ "." +:+ c))
            | None =>
                if rowid_taken t r then
                  Raise (IntegrityError
                           ("UNIQUE constraint failed: " +:+ name +:+ "." +:+
                            default EmptyString (rowid_column d)))
                else if enforce && negb (forallb (foreign_key_ok db d r) (foreign_keys d))
                then Raise (IntegrityError "FOREIGN KEY constraint failed")
                else
                  let seq := match rowid_of d r with
                             | Integer n => Z.max n (sequence t)
                             | _ => sequence t
                             end in
                  Ok (<[name := mkTable d (rows t ++ [r]) seq]> db)
            end
      end
  end.

(** [sqlite3.connect]: foreign keys are not enforced unless the pragma
    is set on the connection. *)
Definition connect (db : gmap string table) : connection :=
  mkConnection false db.

Definition execute {N : Numerics} (clock : string) (s : statement)
    (c : connection) : result connection :=
  match s with
  | CreateTable ine name d =>
      db ← create_table ine name d (file c);
      Ok (mkConnection (enforce_foreign_keys c) db)
  | Insert name a =>
      db ← insert clock (enforce_foreign_keys c) name a (file c);
      Ok (mkConnection (enforce_foreign_keys c) db)
  | PragmaForeignKeys on => Ok (mkConnection on (file c))
  end.

End Sqlite.

Import Sqlite.

Definition churches_def : table_def :=
  mkTableDef
    [ mkColumn "id" "INTEGER" false true true NoDefault;
      mkColumn "name" "TEXT" true false false NoDefault;
      mkColumn "city" "TEXT" true false false NoDefault;
      mkColumn "pastor" "TEXT" true false false NoDefault;
      mkColumn "phone" "TEXT" false false false NoDefault;
      mkColumn "created_at" "TIMESTAMP" false false false CurrentTimestamp ]
    [].

Definition reports_def : table_def :=
  mkTableDef
    [ mkColumn "id" "INTEGER" false true true NoDefault;
      mkColumn "church_id" "INTEGER" true false false NoDefault;
      mkColumn "month" "TEXT" true false false NoDefault;
      mkColumn "tithes" "REAL" true false false NoDefault;
      mkColumn "offerings" "REAL" true false false NoDefault;
      mkColumn "national_contribution" "REAL" true false false NoDefault;
      mkColumn "bank_receipt" "TEXT" false false false NoDefault;
      mkColumn "deposit_date" "DATE" false false false NoDefault;
      mkColumn "photo_path" "TEXT" false false false NoDefault;
      mkColumn "created_at" "TIMESTAMP" false false false CurrentTimestamp ]
    [ mkForeignKey "church_id" "churches" "id" ].

(** [setup_database]: the content of [ipupy_treasurer.db] before and
    after.  [commit] makes the two statements durable and [close] ends the
    connection; the line printed at the end is left out.  The schema does
    not use the clock. *)
Definition setup_database {N : Numerics} (db : gmap string table)
    : result (gmap string table) :=
  let conn := connect db in
  c1 ← execute EmptyString (CreateTable true "churches" churches_def) conn;
  c2 ← execute EmptyString (CreateTable true "reports" reports_def) c1;
  Ok (file c2).

(** ** Notions the properties are stated with *)


(** What a call that took [w] to [w'] put on the wire. *)
Definition sent (w w' : world) (out : list wire) : Prop :=
  wfile w' = wfile w ++ headers_buffer w ++ out.

Fixpoint status_of (out : list wire) : option Z :=
  match out with
  | [] => None
  | StatusLine code :: _ => Some code
  | _ :: out' => status_of out'
  end.

Fixpoint body_of (out : list wire) : list byte :=
  match out with
  | [] => []
  | Payload data :: out' => data ++ body_of out'
  | _ :: out' => body_of out'
  end.

(** The call answers with status [code] and the body [body]. *)
Definition answers (w : world) (code : Z) (body : list byte) : Prop :=
  ∃ r w' out, do_POST w = (r, w') ∧ sent w w' out ∧
              status_of out = Some code ∧ body_of out = body.


(** A request for the upload route on a new connection. *)
Definition upload_request (hs : list (string * string)) (stream : list byte)
    (t : datetime) (f : gmap Path node) : world :=
  mkWorld upload_route hs stream [] [] t f.

(** ** Sample requests *)

Definition morning : datetime := mkDatetime 2024 3 7 9 5 0 123.

Definition upload_abc : world :=
  upload_request [("Host", "localhost:8000"); ("Content-Length", "3")]
    ["a"%byte; "b"%byte; "c"%byte] morning ∅.

Definition upload_without_length : world :=
  upload_request [("Host", "localhost:8000")]
    ["a"%byte; "b"%byte; "c"%byte] morning ∅.

Definition upload_bad_length : world :=
  upload_request [("Content-Length", "12 bytes")]
    ["a"%byte; "b"%byte; "c"%byte] morning ∅.





(** A file server to try the dispatcher with: the file below the working
    directory named by the path, or 404. *)
Definition static_files : M unit :=
  p ← gets path;
  f ← gets fs;
  match f !! [match p with String _ name => name | EmptyString => p end] with
  | Some (File content) => send_response 200;; end_headers;; wfile_write content
  | Some Dir | None => send_response 404;; end_headers
  end.

Definition get_root : world :=
  mkWorld "/" [("Host", "localhost:8000")] [] [] [] morning
    (<[["index.html"] := File ["h"%byte; "i"%byte]]> ∅).

(** ** States of the store *)

(** [setup_database] called [k] times in a row. *)
Fixpoint setup_times {N : Numerics} (k : nat) (db : gmap string table)
    : result (gmap string table) :=
  match k with
  | O => Ok db
  | S k' => db' ← setup_database db; setup_times k' db'
  end.

(** [CREATE TABLE IF NOT EXISTS] as a function: the file as it is when the
    name is taken, else with the new, empty table. *)
Definition with_table (name : string) (d : table_def) (db : gmap string table)
    : gmap string table :=
  match db !! name with
  | Some _ => db
  | None => <[name := mkTable d [] 0]> db
  end.

(** The rows of a table of the file, none when the table is absent. *)
Definition table_rows (db : gmap string table) (name : string) : list row :=
  match db !! name with
  | Some t => rows t
  | None => []
  end.

(** Some Church row has the id [v]. *)
Definition church_exists (db : gmap string table) (v : value) : bool :=
  existsb (λ r, value_eqb (field churches_def "id" r) v) (table_rows db "churches").

(** The church reference of a Report row resolves to a Church row. *)
Definition resolves (db : gmap string table) (r : row) : bool :=
  church_exists db (field reports_def "church_id" r).

(** The value an [INSERT] gives for a column, [NULL] when it names it
    not. *)
Definition given (name : string) (a : list (string * value)) : value :=
  default Null (assigned name a).

(** The three amounts of a Report row are there. *)
Definition amounts_present (r : row) : bool :=
  negb (is_null (field reports_def "tithes" r)) &&
  negb (is_null (field reports_def "offerings" r)) &&
  negb (is_null (field reports_def "national_contribution" r)).

(** Every row carries an integer rowid. *)
Definition rowids_ok (db : gmap string table) : Prop :=
  ∀ name t r, db !! name = Some t → r ∈ rows t →
    ∃ n, rowid_of (definition t) r = Integer n.

(** The sign of an amount, when it is a number. *)
Definition is_negative (v : value) : bool :=
  match v with
  | Integer n => n <? 0
  | Real q => negb (Qle_bool 0 q)
  | Null | Text _ => false
  end.

(** The states the file goes through: it starts empty, [setup_database]
    runs on it, and rows are inserted over connections (the submission of
    churches and reports the data model speaks of).  With [strict], every
    such connection has the pragma [foreign_keys] on; without, each may have
    it on or off. *)
Inductive reachable {N : Numerics} (strict : bool) : gmap string table → Prop :=
| reach_new : reachable strict ∅
| reach_setup (db db' : gmap string table) :
    reachable strict db → setup_database db = Ok db' → reachable strict db'
| reach_insert (db db' : gmap string table) (clock : string) (enforce : bool)
      (name : string) (a : list (string * value)) :
    reachable strict db →
    (strict = true → enforce = true) →
    insert clock enforce name a db = Ok db' →
    reachable strict db'.

(** Only the two tables, each with the definition of the source. *)
Definition schema_ok (db : gmap string table) : Prop :=
  ∀ name t, db !! name = Some t →
    (name = "churches" ∧ definition t = churches_def) ∨
    (name = "reports" ∧ definition t = reports_def).

(** ** Sample numerics *)

Definition is_space_char (c : ascii) : bool :=
  let n := nat_of_ascii c in
  ((9 <=? n)%nat && (n <=? 13)%nat) || (n =? 32)%nat.

Fixpoint drop_spaces (l : list ascii) : list ascii :=
  match l with
  | c :: l' => if is_space_char c then drop_spaces l' else l
  | [] => []
  end.

Fixpoint digits_value (l : list ascii) (acc : Z) : option Z :=
  match l with
  | [] => Some acc
  | c :: l' =>
      let n := nat_of_ascii c in
      if (48 <=? n)%nat && (n <=? 57)%nat
      then digits_value l' (10 * acc + Z.of_nat (n - 48))
      else None
  end.

(** A whole number in decimal, a sign before it and white space around it
    allowed. *)
Definition whole_number (s : string) : option Z :=
  match rev (drop_spaces (rev (drop_spaces (list_ascii_of_string s)))) with
  | [] => None
  | c :: l =>
      if Ascii.eqb c "-" then
        match l with [] => None | _ :: _ => Z.opp <$> digits_value l 0 end
      else if Ascii.eqb c "+" then
        match l with [] => None | _ :: _ => digits_value l 0 end
      else digits_value (c :: l) 0
  end.

(** The engine's two routines as far as the samples need them, which is
    on whole numbers: a text that is a whole number is read as that
    integer, as the nearest double when it does not fit 64 bits, and a
    whole real is written with [.0] after it.  Numbers with a fraction or
    an exponent are the engine's to read and write; no sample has one in a
    place where the engine would. *)
#[export] Instance sample_numerics : Numerics := {
  number_of_text s :=
    match whole_number s with
    | Some n =>
        if (int64_min <=? n) && (n <=? int64_max) then Some (inl n)
        else Some (inr (real_of_integer n))
    | None => None
    end;
  text_of_real q :=
    NilZero.string_of_int (Z.to_int (Z.quot (Qnum q) (Zpos (Qden q)))) +:+ ".0"
}.

(** ** Sample rows *)

Definition a_church : list (string * value) :=
  [("name", Text "Central"); ("city", Text "Asuncion"); ("pastor", Text "Juan")].

(** The columns a report submission fills in. *)
Definition report_values (church : Z) (month : string)
    (tithes offerings national_contribution : value) : list (string * value) :=
  [("church_id", Integer church); ("month", Text month);
   ("tithes", tithes); ("offerings", offerings);
   ("national_contribution", national_contribution)].

Definition a_report (church : Z) (tithes : Q) : list (string * value) :=
  report_values church "2024-01" (Real tithes) (Real 0) (Real 0).

(** The file after the first start of the server. *)
Definition fresh_store : gmap string table :=
  <["reports" := mkTable reports_def [] 0]>
    (<["churches" := mkTable churches_def [] 0]> ∅).

Definition store_with_church : gmap string table :=
  <["churches" :=
      mkTable churches_def
        [[Integer 1; Text "Central"; Text "Asuncion"; Text "Juan"; Null;
          Text "2024-03-07 09:05:00"]] 1]> fresh_store.

(** ** The response, spelled out

    What the success response has to be, written without the functions of
    the model: the stamp digit by digit, the JSON text character by
    character. *)







(** ** Further notions *)


(** The world an upload leaves when the directory is there, or was made,
    and the file could not be opened. *)
Definition upload_stuck (n : Z) (w : world) : world :=
  mkWorld (path w) (headers w) (unread_bytes n (rfile w))
          (headers_buffer w) (wfile w) (now w)
          (<[uploads_dir := Dir]> (fs w)).


Definition upload_minus_two : world :=
  upload_request [("Content-Length", "-2")]
    ["a"%byte; "b"%byte; "c"%byte] morning ∅.




(** No two rows of a table carry the same rowid. *)
Definition rowids_distinct (db : gmap string table) : Prop :=
  ∀ name t, db !! name = Some t →
    NoDup (map (rowid_of (definition t)) (rows t)).

(** The three required texts of a Church row are there. *)
Definition names_present (r : row) : bool :=
  negb (is_null (field churches_def "name" r)) &&
  negb (is_null (field churches_def "city" r)) &&
  negb (is_null (field churches_def "pastor" r)).



(** The church reference and the month of a Report row are there. *)
Definition reference_present (r : row) : bool :=
  negb (is_null (field reports_def "church_id" r)) &&
  negb (is_null (field reports_def "month" r)).
Arguments file_path_at : simpl never.

Lemma parent_file_path_at (t : datetime) : parent (file_path_at t) = uploads_dir.
Proof. reflexivity. Qed.

Lemma file_path_at_not_uploads_dir (t : datetime) : file_path_at t ≠ uploads_dir.
Proof. unfold file_path_at, uploads_dir. simpl. discriminate. Qed.

Lemma fs_lookup_file_path_at (f : gmap Path node) (t : datetime) :
  fs_lookup f (file_path_at t) = f !! file_path_at t.
Proof. reflexivity. Qed.

(** *** One equation per step *)

Lemma bind_run {A B : Type} (m : M A) (k : A → M B) (w : world) :
  (m ≫= k) w =
  match m w with
  | (Ok a, w') => k a w'
  | (Raise e, w') => (Raise e, w')
  end.
Proof. reflexivity. Qed.

Lemma int_run (v : string) (n : Z) (w : world) :
  Py.int v = Some n → int (Some v) w = (Ok n, w).
Proof. intros H. unfold int. by rewrite H. Qed.

(** [int] takes 4300 digits and no more, leading zeros counted. *)
Example int_digit_limit :
  (∃ n, Py.int (string_of_list_ascii (List.repeat "1"%char 4300)) = Some n) ∧
  Py.int (string_of_list_ascii (List.repeat "1"%char 4301)) = None ∧
  Py.int (string_of_list_ascii (List.repeat "0"%char 4300)) = Some 0 ∧
  Py.int (string_of_list_ascii (List.repeat "0"%char 4301)) = None.
Proof.
  split; [eexists; vm_compute; reflexivity |].
  repeat split; vm_compute; reflexivity.
Qed.

Lemma ssize_t_bounds : ssize_t_min = - 2 ^ 63 ∧ ssize_t_max = 2 ^ 63 - 1.
Proof. done. Qed.

(** [read] takes a [Py_ssize_t]: [2^63 - 1] is one, [2^63] is not, and
    below [-2^63] the refusal is an overflow as well. *)
Example rfile_read_limits :
  (∃ r w', rfile_read 9223372036854775807 upload_abc = (Ok r, w')) ∧
  rfile_read 9223372036854775808 upload_abc = (Raise OverflowError, upload_abc) ∧
  rfile_read (-9223372036854775808) upload_abc = (Raise ValueError, upload_abc) ∧
  rfile_read (-9223372036854775809) upload_abc = (Raise OverflowError, upload_abc).
Proof.
  split; [eexists; eexists; reflexivity |]. repeat split; reflexivity.
Qed.

Lemma rfile_read_run (n : Z) (w : world) :
  -1 ≤ n → n ≤ ssize_t_max →
  rfile_read n w =
  (Ok (read_bytes n (rfile w)), set_rfile (unread_bytes n (rfile w)) w).
Proof.
  intros H Hmax. unfold rfile_read, read_bytes, unread_bytes.
  destruct ssize_t_bounds as [Emin Emax].
  destruct (Z.ltb_spec n ssize_t_min); [lia |].
  destruct (Z.ltb_spec ssize_t_max n); [lia |]. simpl.
  destruct (Z.ltb_spec n (-1)); [lia |]. by destruct (n =? -1).
Qed.

Lemma rfile_read_below (n : Z) (w : world) :
  ssize_t_min ≤ n → n < -1 → rfile_read n w = (Raise ValueError, w).
Proof.
  intros Hmin H. unfold rfile_read.
  destruct ssize_t_bounds as [Emin Emax].
  destruct (Z.ltb_spec n ssize_t_min); [lia |].
  destruct (Z.ltb_spec ssize_t_max n); [lia |]. simpl.
  destruct (Z.ltb_spec n (-1)); [done | lia].
Qed.

Lemma rfile_read_overflow (n : Z) (w : world) :
  n < ssize_t_min ∨ ssize_t_max < n →
  rfile_read n w = (Raise OverflowError, w).
Proof.
  intros H. unfold rfile_read.
  destruct (Z.ltb_spec n ssize_t_min); [done |].
  destruct (Z.ltb_spec ssize_t_max n); [done | lia].
Qed.

Lemma Path_mkdir_run (w : world) :
  fs w !! uploads_dir = None ∨ fs w !! uploads_dir = Some Dir →
  Path_mkdir true uploads_dir w = (Ok tt, set_fs (<[uploads_dir := Dir]> (fs w)) w).
Proof.
  intros H. unfold Path_mkdir. simpl.
  destruct H as [H | H]; rewrite H; [done |].
  rewrite insert_id by done. by destruct w.
Qed.

Lemma Path_mkdir_over_file (w : world) (c : list byte) :
  fs w !! uploads_dir = Some (File c) →
  Path_mkdir true uploads_dir w = (Raise FileExistsError, w).
Proof. intros H. unfold Path_mkdir. simpl. by rewrite H. Qed.

Lemma open_wb_run (t : datetime) (w : world) :
  fs w !! uploads_dir = Some Dir →
  fs w !! file_path_at t ≠ Some Dir →
  open_wb (file_path_at t) w =
  (Ok (file_path_at t), set_fs (<[file_path_at t := File []]> (fs w)) w).
Proof.
  intros Hd Hf. unfold open_wb.
  rewrite parent_file_path_at, fs_lookup_file_path_at. simpl. rewrite Hd.
  destruct (fs w !! file_path_at t) as [[c |] |]; done.
Qed.

Lemma file_write_run (f : Path) (old data : list byte) (w : world) :
  fs w !! f = Some (File old) →
  file_write f data w = (Ok tt, set_fs (<[f := File (old ++ data)]> (fs w)) w).
Proof. intros H. unfold file_write, modify. by rewrite H. Qed.

Lemma storage_ready_inv (t : datetime) (f : gmap Path node) :
  storage_ready t f = true →
  (f !! uploads_dir = None ∨ f !! uploads_dir = Some Dir) ∧
  f !! file_path_at t ≠ Some Dir.
Proof.
  unfold storage_ready.
  destruct (f !! uploads_dir) as [[c |] |];
    destruct (f !! file_path_at t) as [[c' |] |]; intros H;
    try discriminate H; split; auto; discriminate.
Qed.

Ltac step E := rewrite bind_run, E; cbv beta iota.

Lemma do_POST_route_miss (w : world) :
  path w ≠ upload_route → do_POST w = (Ok tt, not_found_done w).
Proof.
  intros Hp. unfold do_POST.
  rewrite bind_run. unfold gets at 1. cbv beta iota.
  destruct (String.eqb_spec (path w) upload_route) as [E | _]; [contradiction |].
  unfold send_response, end_headers, modify, not_found_done.
  rewrite bind_run. simpl. by rewrite <- app_assoc.
Qed.

Lemma do_POST_length_missing (w : world) :
  path w = upload_route →
  Py.message_get "Content-Length" (headers w) = None →
  do_POST w = (Raise TypeError, w).
Proof.
  intros Hp Hh. unfold do_POST.
  rewrite bind_run. unfold gets at 1. cbv beta iota.
  rewrite Hp, String.eqb_refl.
  rewrite bind_run. unfold headers_getitem, gets at 1. cbv beta iota.
  rewrite Hh. reflexivity.
Qed.

Lemma do_POST_length_invalid (w : world) (v : string) :
  path w = upload_route →
  Py.message_get "Content-Length" (headers w) = Some v →
  Py.int v = None →
  do_POST w = (Raise ValueError, w).
Proof.
  intros Hp Hh Hi. unfold do_POST.
  rewrite bind_run. unfold gets at 1. cbv beta iota.
  rewrite Hp, String.eqb_refl.
  rewrite bind_run. unfold headers_getitem, gets at 1. cbv beta iota.
  rewrite Hh. rewrite bind_run. unfold int, raise. by rewrite Hi.
Qed.

Lemma do_POST_stores (w : world) (v : string) (n : Z) :
  path w = upload_route →
  Py.message_get "Content-Length" (headers w) = Some v →
  Py.int v = Some n →
  -1 ≤ n ≤ ssize_t_max →
  storage_ready (now w) (fs w) = true →
  do_POST w = (Ok tt, upload_done n w).
Proof.
  intros Hp Hh Hi Hn Hs.
  destruct (storage_ready_inv _ _ Hs) as [Hu Hf].
  unfold do_POST.
  rewrite bind_run. unfold gets at 1. cbv beta iota.
  rewrite Hp, String.eqb_refl.
  rewrite bind_run. unfold headers_getitem, gets at 1. cbv beta iota.
  rewrite Hh.
  step (int_run v n w Hi).
  step (rfile_read_run n w (proj1 Hn) (proj2 Hn)).
  rewrite bind_run. unfold datetime_now, gets at 1. cbv beta iota.
  change (now (set_rfile (unread_bytes n (rfile w)) w)) with (now w).
  set (w1 := set_rfile (unread_bytes n (rfile w)) w).
  step (Path_mkdir_run w1 Hu).
  set (w2 := set_fs (<[uploads_dir:=Dir]> (fs w1)) w1).
  assert (Hd2 : fs w2 !! uploads_dir = Some Dir) by apply lookup_insert_eq.
  assert (Hf2 : fs w2 !! file_path_at (now w) ≠ Some Dir).
  { unfold w2. simpl. rewrite lookup_insert_ne; [done |].
    intros E. by apply (file_path_at_not_uploads_dir (now w)). }
  step (open_wb_run (now w) w2 Hd2 Hf2).
  set (w3 := set_fs (<[file_path_at (now w):=File []]> (fs w2)) w2).
  assert (Hf3 : fs w3 !! file_path_at (now w) = Some (File [])) by apply lookup_insert_eq.
  step (file_write_run _ _ (read_bytes n (rfile w)) w3 Hf3).
  unfold send_response, send_header, end_headers, wfile_write, modify.
  rewrite !bind_run. cbv beta iota.
  unfold upload_done, success_response, w3, w2, w1. simpl.
  rewrite insert_insert_eq. f_equal. f_equal.
  rewrite <- !app_assoc. reflexivity.
Qed.


(** *** The file name *)












(** *** The model writes what is spelled out *)








(** ** The properties of the handler *)



(** C2 as stated fails: a POST to the upload route without a
    [Content-Length] header is not answered with 404; [int(None)] raises
    and nothing is sent. *)
Lemma missing_length_is_not_answered_404 :
  path upload_without_length = upload_route ∧
  Py.message_get "Content-Length" (headers upload_without_length) = None ∧
  do_POST upload_without_length = (Raise TypeError, upload_without_length) ∧
  ¬ answers upload_without_length 404 [].
Proof.
  split; [reflexivity |]. split; [reflexivity |]. split; [reflexivity |].
  intros (r & w' & out & Hrun & Hsent & Hst & _).
  assert (E : w' = upload_without_length).
  { assert (H : do_POST upload_without_length
                = (Raise TypeError, upload_without_length)) by reflexivity.
    rewrite H in Hrun. congruence. }
  subst w'. unfold sent in Hsent. simpl in Hsent. subst out. discriminate Hst.
Qed.

(** C2, amended. A POST to [/api/upload] whose [Content-Length] header is
    absent or is not an integer literal makes the handler raise, [TypeError]
    when absent and [ValueError] when unparsable, before it sends anything:
    no status line, no header, no body, and the handler state is as
    before. *)
Theorem do_POST_bad_length_raises (w : world) :
  path w = upload_route →
  match Py.message_get "Content-Length" (headers w) with
  | None => True
  | Some v => Py.int v = None
  end →
  ∃ e,
    do_POST w = (Raise e, w) ∧
    e = match Py.message_get "Content-Length" (headers w) with
        | Some _ => ValueError
        | None => TypeError
        end ∧
    (∀ r w' out, do_POST w = (r, w') → sent w w' out → out = []) ∧
    (∀ code body, ¬ answers w code body).
Proof.
  intros Hp Hbad.
  assert (Hrun : do_POST w =
    (Raise match Py.message_get "Content-Length" (headers w) with
           | Some _ => ValueError
           | None => TypeError
           end, w)).
  { destruct (Py.message_get "Content-Length" (headers w)) as [v |] eqn:Hh.
    - by apply (do_POST_length_invalid w v).
    - by apply do_POST_length_missing. }
  assert (Hnone : ∀ r w' out, do_POST w = (r, w') → sent w w' out → out = []).
  { intros r w' out Hrun' Hsent. rewrite Hrun in Hrun'.
    injection Hrun' as _ <-. unfold sent in Hsent. symmetry in Hsent.
    rewrite <- (app_nil_r (wfile w)) in Hsent at 2.
    apply app_inv_head in Hsent. by apply app_eq_nil in Hsent as [_ ->]. }
  eexists. split; [exact Hrun |]. split; [reflexivity |]. split; [exact Hnone |].
  intros code body (r & w' & out & Hrun' & Hsent & Hst & _).
  rewrite (Hnone r w' out Hrun' Hsent) in Hst. discriminate Hst.
Qed.

Lemma do_POST_bad_length_raises_witness :
  ∃ e,
    do_POST upload_bad_length = (Raise e, upload_bad_length) ∧
    e = ValueError ∧
    (∀ r w' out, do_POST upload_bad_length = (r, w') →
                 sent upload_bad_length w' out → out = []) ∧
    (∀ code body, ¬ answers upload_bad_length code body).
Proof. apply (do_POST_bad_length_raises upload_bad_length); reflexivity. Defined.



(** C9. A POST to [/api/upload] whose [Content-Length] header is absent or
    unparsable fails in the conversion, before the uploads directory is
    made and before any file is written: the handler raises and the file
    system is the one it started with. *)
Theorem do_POST_bad_length_keeps_fs (w : world) :
  path w = upload_route →
  Py.message_get "Content-Length" (headers w) = None ∨
  (∃ v, Py.message_get "Content-Length" (headers w) = Some v ∧ Py.int v = None) →
  ∃ e w',
    do_POST w = (Raise e, w') ∧
    (e = TypeError ∨ e = ValueError) ∧
    fs w' = fs w.
Proof.
  intros Hp [Hh | (v & Hh & Hi)].
  - exists TypeError, w. split; [by apply do_POST_length_missing | auto].
  - exists ValueError, w. split; [by apply (do_POST_length_invalid w v) | auto].
Qed.

Lemma do_POST_bad_length_keeps_fs_witness :
  ∃ e w',
    do_POST upload_bad_length = (Raise e, w') ∧
    (e = TypeError ∨ e = ValueError) ∧
    fs w' = fs upload_bad_length.
Proof.
  apply (do_POST_bad_length_keeps_fs upload_bad_length);
    [reflexivity | right; exists "12 bytes"; split; reflexivity].
Defined.




(** A declared length of [-1] makes [read] take the whole stream. *)
Lemma do_POST_length_minus_one (w : world) (v : string) :
  path w = upload_route →
  Py.message_get "Content-Length" (headers w) = Some v →
  Py.int v = Some (-1) →
  storage_ready (now w) (fs w) = true →
  ∃ w', do_POST w = (Ok tt, w') ∧
        fs w' !! file_path_at (now w) = Some (File (rfile w)).
Proof.
  intros Hp Hh Hi Hs. exists (upload_done (-1) w). split.
  - apply (do_POST_stores w v); auto. unfold ssize_t_max. lia.
  - unfold upload_done. simpl. by rewrite lookup_insert_eq.
Qed.

(** A declared length below [-1] is refused by [read], before the file
    system is touched. *)
Lemma do_POST_length_below_minus_one (w : world) (v : string) (n : Z) :
  path w = upload_route →
  Py.message_get "Content-Length" (headers w) = Some v →
  Py.int v = Some n →
  ssize_t_min ≤ n < -1 →
  do_POST w = (Raise ValueError, w).
Proof.
  intros Hp Hh Hi Hn. unfold do_POST.
  rewrite bind_run. unfold gets at 1. cbv beta iota.
  rewrite Hp, String.eqb_refl.
  rewrite bind_run. unfold headers_getitem, gets at 1. cbv beta iota.
  rewrite Hh.
  step (int_run v n w Hi).
  by step (rfile_read_below n w (proj1 Hn) (proj2 Hn)).
Qed.

(** A declared length that is no [Py_ssize_t] is refused by [read] too. *)
Lemma do_POST_length_overflow (w : world) (v : string) (n : Z) :
  path w = upload_route →
  Py.message_get "Content-Length" (headers w) = Some v →
  Py.int v = Some n →
  n < ssize_t_min ∨ ssize_t_max < n →
  do_POST w = (Raise OverflowError, w).
Proof.
  intros Hp Hh Hi Hn. unfold do_POST.
  rewrite bind_run. unfold gets at 1. cbv beta iota.
  rewrite Hp, String.eqb_refl.
  rewrite bind_run. unfold headers_getitem, gets at 1. cbv beta iota.
  rewrite Hh.
  step (int_run v n w Hi).
  by step (rfile_read_overflow n w Hn).
Qed.

(** With [uploads] a regular file the directory cannot be made: the
    handler raises after reading the body and before answering. *)
Lemma do_POST_uploads_is_a_file (w : world) (v : string) (n : Z) (c : list byte) :
  path w = upload_route →
  Py.message_get "Content-Length" (headers w) = Some v →
  Py.int v = Some n →
  -1 ≤ n ≤ ssize_t_max →
  fs w !! uploads_dir = Some (File c) →
  do_POST w = (Raise FileExistsError, set_rfile (unread_bytes n (rfile w)) w).
Proof.
  intros Hp Hh Hi Hn Hu. unfold do_POST.
  rewrite bind_run. unfold gets at 1. cbv beta iota.
  rewrite Hp, String.eqb_refl.
  rewrite bind_run. unfold headers_getitem, gets at 1. cbv beta iota.
  rewrite Hh.
  step (int_run v n w Hi).
  step (rfile_read_run n w (proj1 Hn) (proj2 Hn)).
  rewrite bind_run. unfold datetime_now, gets at 1. cbv beta iota.
  by step (Path_mkdir_over_file (set_rfile (unread_bytes n (rfile w)) w) c Hu).
Qed.



(** C8. For a GET whose path is exactly [/] the dispatcher sets the path to
    [/index.html], leaves the rest of the handler as it is, and then
    delegates to the static file server; so GET [/] yields what GET
    [/index.html] yields on the same request otherwise. *)
Theorem do_GET_root_is_index (static : M unit) (w : world) :
  path w = "/" →
  do_GET static w
  = static (mkWorld "/index.html" (headers w) (rfile w) (headers_buffer w)
              (wfile w) (now w) (fs w)) ∧
  (∀ w2 : world,
     path w2 = "/index.html" →
     headers w2 = headers w → rfile w2 = rfile w →
     headers_buffer w2 = headers_buffer w → wfile w2 = wfile w →
     now w2 = now w → fs w2 = fs w →
     do_GET static w = do_GET static w2 ∧ do_GET static w2 = static w2).
Proof.
  intros Hp.
  assert (Hrun : do_GET static w
    = static (mkWorld "/index.html" (headers w) (rfile w) (headers_buffer w)
                (wfile w) (now w) (fs w))).
  { unfold do_GET. rewrite !bind_run. unfold gets, modify, mret, M_ret.
    simpl. by rewrite Hp. }
  split; [exact Hrun |].
  intros [p hs rf hb wf t f] H1 H2 H3 H4 H5 H6 H7. simpl in *. subst.
  rewrite Hrun. split; [| reflexivity]. reflexivity.
Qed.

Lemma do_GET_root_is_index_witness :
  do_GET static_files get_root
  = static_files
      (mkWorld "/index.html" [("Host", "localhost:8000")] [] [] [] morning
         (<[["index.html"] := File ["h"%byte; "i"%byte]]> ∅)) ∧
  (∀ w2 : world,
     path w2 = "/index.html" →
     headers w2 = headers get_root → rfile w2 = rfile get_root →
     headers_buffer w2 = headers_buffer get_root → wfile w2 = wfile get_root →
     now w2 = now get_root → fs w2 = fs get_root →
     do_GET static_files get_root = do_GET static_files w2 ∧
     do_GET static_files w2 = static_files w2).
Proof. apply (do_GET_root_is_index static_files get_root). reflexivity. Defined.

(** Any other path reaches the static file server as it came. *)
Lemma do_GET_other_path (static : M unit) (w : world) :
  path w ≠ "/" → do_GET static w = static w.
Proof.
  intros Hp. unfold do_GET.
  rewrite !bind_run. unfold gets, modify, mret, M_ret. simpl.
  by destruct (String.eqb_spec (path w) "/").
Qed.

(** ** The store *)

Example setup_database_first_run : setup_database ∅ = Ok fresh_store.
Proof. reflexivity. Qed.

Example insert_first_church :
  insert "2024-03-07 09:05:00" false "churches" a_church fresh_store
  = Ok store_with_church.
Proof. reflexivity. Qed.

(** Columns are named without regard to letter case. *)
Example insert_names_any_case :
  insert "2024-03-07 09:05:00" false "churches"
    [("NAME", Text "Central"); ("City", Text "Asuncion"); ("pastor", Text "Juan")]
    fresh_store
  = Ok store_with_church.
Proof. reflexivity. Qed.

(** An [int] of more than 64 bits does not reach the engine. *)
Example insert_int_too_large :
  insert "2024-03-07 09:05:00" false "reports"
    (a_report 9223372036854775808 100) store_with_church
  = Raise OverflowError.
Proof. reflexivity. Qed.

(** Once the largest rowid of 64 bits is used, an [AUTOINCREMENT] table
    takes no row without a rowid of its own, also when rows are far fewer. *)
Example insert_table_full :
  ∃ db,
    insert "2024-03-07 09:05:00" false "churches"
      (("id", Integer 9223372036854775807) :: a_church) fresh_store = Ok db ∧
    insert "2024-03-07 09:05:01" false "churches" a_church db
    = Raise (OperationalError "database or disk is full").
Proof. eexists. split; reflexivity. Qed.

(** Texts in an integer column: one that is a number is stored as the
    number, so a church reference given as the text ["1"] is the church 1;
    one that is no number stays a text. *)
Example insert_church_reference_as_text :
  ∃ db,
    insert "2024-03-07 09:05:00" true "reports"
      [("church_id", Text "1"); ("month", Text "2024-01"); ("tithes", Real 100);
       ("offerings", Real 0); ("national_contribution", Real 0)]
      store_with_church = Ok db ∧
    table_rows db "reports"
    = [[Integer 1; Integer 1; Text "2024-01"; Real 100; Real 0; Real 0;
        Null; Null; Null; Text "2024-03-07 09:05:00"]] ∧
    insert "2024-03-07 09:05:00" true "reports"
      [("church_id", Text "one"); ("month", Text "2024-01"); ("tithes", Real 100);
       ("offerings", Real 0); ("national_contribution", Real 0)]
      store_with_church
    = Raise (IntegrityError "FOREIGN KEY constraint failed").
Proof. eexists. split; [reflexivity |]. split; reflexivity. Qed.

(** *** [CREATE TABLE] and [setup_database] *)

Lemma create_table_if_not_exists_ok (name : string) (d : table_def)
    (db : gmap string table) :
  create_table true name d db = Ok (with_table name d db).
Proof. unfold create_table, with_table. by destruct (db !! name). Qed.

(** Without [IF NOT EXISTS] the second creation is the duplicate-table
    error. *)
Lemma create_table_twice_fails (name : string) (d : table_def)
    (db : gmap string table) (t : table) :
  db !! name = Some t →
  create_table false name d db
  = Raise (OperationalError ("table " +:+ name +:+ " already exists")).
Proof. intros H. unfold create_table. by rewrite H. Qed.

Lemma with_table_present (name : string) (d : table_def)
    (db : gmap string table) :
  is_Some (db !! name) → with_table name d db = db.
Proof. intros [t H]. unfold with_table. by rewrite H. Qed.

Lemma with_table_keeps (name k : string) (d : table_def)
    (db : gmap string table) (t : table) :
  db !! k = Some t → with_table name d db !! k = Some t.
Proof.
  intros H. unfold with_table. destruct (db !! name) eqn:E; [done |].
  rewrite lookup_insert_ne; [done | congruence].
Qed.

Lemma with_table_has (name : string) (d : table_def) (db : gmap string table) :
  is_Some (with_table name d db !! name).
Proof.
  unfold with_table. destruct (db !! name) eqn:E; [by rewrite E |].
  rewrite lookup_insert_eq. by eexists.
Qed.

Lemma with_table_lookup (name k : string) (d : table_def)
    (db : gmap string table) (t : table) :
  with_table name d db !! k = Some t →
  db !! k = Some t ∨ (k = name ∧ db !! name = None ∧ t = mkTable d [] 0).
Proof.
  unfold with_table. destruct (db !! name) eqn:E; [by left |].
  destruct (decide (name = k)) as [-> | Hne].
  - rewrite lookup_insert_eq. intros [= <-]. by right.
  - rewrite lookup_insert_ne by done. by left.
Qed.

Lemma with_table_rows (name k : string) (d : table_def)
    (db : gmap string table) :
  table_rows (with_table name d db) k = table_rows db k.
Proof.
  unfold table_rows, with_table. destruct (db !! name) eqn:E; [done |].
  destruct (decide (name = k)) as [-> | Hne].
  - by rewrite lookup_insert_eq, E.
  - by rewrite lookup_insert_ne.
Qed.

Lemma setup_database_run {N : Numerics} (db : gmap string table) :
  setup_database db
  = Ok (with_table "reports" reports_def (with_table "churches" churches_def db)).
Proof.
  unfold setup_database, execute, connect. simpl.
  rewrite create_table_if_not_exists_ok. simpl.
  by rewrite create_table_if_not_exists_ok.
Qed.

Lemma setup_database_fixed {N : Numerics} (db db' : gmap string table) :
  setup_database db = Ok db' → setup_database db' = Ok db'.
Proof.
  rewrite !setup_database_run. intros [= <-]. f_equal.
  rewrite (with_table_present "churches").
  - apply with_table_present, with_table_has.
  - destruct (with_table_has "churches" churches_def db) as [t Ht].
    exists t. by apply with_table_keeps.
Qed.

Lemma setup_times_fixed {N : Numerics} (k : nat) (db : gmap string table) :
  setup_database db = Ok db → setup_times k db = Ok db.
Proof.
  intros H. induction k as [| k IH]; [done |].
  simpl. rewrite H. exact IH.
Qed.

Lemma setup_database_rows {N : Numerics} (db db' : gmap string table) (name : string) :
  setup_database db = Ok db' → table_rows db' name = table_rows db name.
Proof.
  rewrite setup_database_run. intros [= <-]. by rewrite !with_table_rows.
Qed.

(** *** The schema in the states of the file *)

Lemma with_table_schema_ok (db : gmap string table) :
  schema_ok db →
  schema_ok (with_table "reports" reports_def (with_table "churches" churches_def db)).
Proof.
  intros H name t Ht.
  apply with_table_lookup in Ht as [Ht | (-> & _ & ->)]; [| by right].
  apply with_table_lookup in Ht as [Ht | (-> & _ & ->)]; [| by left].
  by apply H.
Qed.

(** What an accepted [INSERT] went through. *)
Lemma insert_inv {N : Numerics} (clock : string) (enforce : bool) (name : string)
    (a : list (string * value)) (db db' : gmap string table) :
  insert clock enforce name a db = Ok db' →
  ∃ t r,
    db !! name = Some t ∧
    fill_rowid (assignable_rowid t) (columns (definition t))
      (map (stored clock a) (columns (definition t))) = Ok r ∧
    not_null_violation (columns (definition t)) r = None ∧
    rowid_taken t r = false ∧
    (enforce = true →
     forallb (foreign_key_ok db (definition t) r) (foreign_keys (definition t)) = true) ∧
    ∃ seq, db' = <[name := mkTable (definition t) (rows t ++ [r]) seq]> db.
Proof.
  unfold insert. destruct (db !! name) as [t |] eqn:Ht; [| discriminate].
  destruct (unknown_column (definition t) a); [discriminate |].
  destruct (existsb unbindable (map snd a)); [discriminate |].
  destruct (fill_rowid _ _ _) as [r |] eqn:Hfill; [| discriminate]. simpl.
  destruct (not_null_violation _ r) eqn:Hnn; [discriminate |].
  destruct (rowid_taken t r) eqn:Htaken; [discriminate |].
  destruct (enforce && negb (forallb _ _)) eqn:E; [discriminate |].
  intros [= <-]. exists t, r.
  split; [reflexivity |]. split; [exact Hfill |]. split; [exact Hnn |].
  split; [exact Htaken |]. split; [| by eexists].
  intros ->. simpl in E. by apply negb_false_iff in E.
Qed.

(** Every value of an accepted [INSERT] fits 64 bits. *)
Lemma insert_bindable {N : Numerics} (clock : string) (enforce : bool)
    (name : string) (a : list (string * value)) (db db' : gmap string table) :
  insert clock enforce name a db = Ok db' →
  existsb unbindable (map snd a) = false.
Proof.
  unfold insert. destruct (db !! name) as [t |]; [| discriminate].
  destruct (unknown_column (definition t) a); [discriminate |].
  by destruct (existsb unbindable (map snd a)).
Qed.

Lemma insert_schema_ok {N : Numerics} (clock : string) (enforce : bool)
    (name : string) (a : list (string * value)) (db db' : gmap string table) :
  schema_ok db → insert clock enforce name a db = Ok db' → schema_ok db'.
Proof.
  intros Hs Hi. apply insert_inv in Hi as (t & r & Ht & _ & _ & _ & _ & seq & ->).
  intros k t' Hk. destruct (decide (name = k)) as [-> | Hne].
  - rewrite lookup_insert_eq in Hk. injection Hk as <-. simpl. by apply (Hs k t).
  - rewrite lookup_insert_ne in Hk by done. by apply Hs.
Qed.

Lemma reachable_schema_ok {N : Numerics} (strict : bool) (db : gmap string table) :
  reachable strict db → schema_ok db.
Proof.
  induction 1 as [| db db' _ IH Hs | db db' clock enforce name a _ IH _ Hi].
  - intros name t H. by rewrite lookup_empty in H.
  - rewrite setup_database_run in Hs. injection Hs as <-.
    by apply with_table_schema_ok.
  - by apply (insert_schema_ok clock enforce name a db).
Qed.

(** C4. [setup_database] is idempotent.  In any state of the file, fresh or
    left by earlier runs and inserts, [N >= 1] calls in a row all succeed
    (no duplicate-table error) and leave what one call leaves: exactly the
    tables [churches] and [reports], with the columns and the foreign key
    of the source, and every table that was there before, rows included,
    as it was. *)
Theorem setup_database_idempotent {engine : Numerics} (db : gmap string table)
    (N : nat) :
  reachable false db →
  (1 ≤ N)%nat →
  ∃ db' cs rs,
    setup_database db = Ok db' ∧
    setup_times N db = Ok db' ∧
    setup_database db' = Ok db' ∧
    db' !! "churches" = Some cs ∧ definition cs = churches_def ∧
    db' !! "reports" = Some rs ∧ definition rs = reports_def ∧
    (∀ name, is_Some (db' !! name) → name = "churches" ∨ name = "reports") ∧
    (∀ name t, db !! name = Some t → db' !! name = Some t) ∧
    (∀ name, table_rows db' name = table_rows db name).
Proof.
  intros Hr HN.
  set (db' := with_table "reports" reports_def (with_table "churches" churches_def db)).
  assert (Hrun : setup_database db = Ok db') by apply setup_database_run.
  assert (Hfix : setup_database db' = Ok db') by exact (setup_database_fixed _ _ Hrun).
  assert (Hok : schema_ok db').
  { apply with_table_schema_ok, (reachable_schema_ok false db Hr). }
  destruct (with_table_has "churches" churches_def db) as [cs0 Hcs0].
  assert (Hcs : db' !! "churches" = Some cs0) by by apply with_table_keeps.
  destruct (with_table_has "reports" reports_def (with_table "churches" churches_def db))
    as [rs Hrs].
  exists db', cs0, rs. split; [exact Hrun |]. split.
  { destruct N as [| k]; [lia |]. simpl. rewrite Hrun. simpl.
    by apply setup_times_fixed. }
  split; [exact Hfix |]. split; [exact Hcs |]. split.
  { destruct (Hok _ _ Hcs) as [[_ H] | [H _]]; [done | discriminate]. }
  split; [exact Hrs |]. split.
  { destruct (Hok _ _ Hrs) as [[H _] | [_ H]]; [discriminate | done]. }
  split.
  { intros name [t Ht]. destruct (Hok _ _ Ht) as [[H _] | [H _]]; auto. }
  split.
  { intros name t Ht. by apply with_table_keeps, with_table_keeps. }
  intros name. by apply setup_database_rows.
Qed.

Lemma setup_database_idempotent_witness :
  ∃ db' cs rs,
    setup_database store_with_church = Ok db' ∧
    setup_times 3 store_with_church = Ok db' ∧
    setup_database db' = Ok db' ∧
    db' !! "churches" = Some cs ∧ definition cs = churches_def ∧
    db' !! "reports" = Some rs ∧ definition rs = reports_def ∧
    (∀ name, is_Some (db' !! name) → name = "churches" ∨ name = "reports") ∧
    (∀ name t, store_with_church !! name = Some t → db' !! name = Some t) ∧
    (∀ name, table_rows db' name = table_rows store_with_church name).
Proof.
  apply (setup_database_idempotent store_with_church 3); [| lia].
  apply (reach_insert false fresh_store store_with_church
           "2024-03-07 09:05:00" false "churches" a_church);
    [| discriminate | reflexivity].
  apply (reach_setup false ∅ fresh_store); [apply reach_new | reflexivity].
Defined.

(** *** Rows of the two tables *)

Lemma fill_rowid_reports (next : result Z) (f : column → value) (r : row) :
  fill_rowid next (columns reports_def) (map f (columns reports_def)) = Ok r →
  ∃ n, r = Integer n :: map f (tail (columns reports_def)) ∧
       (f (mkColumn "id" "INTEGER" false true true NoDefault) = Null → next = Ok n).
Proof.
  unfold reports_def. simpl.
  destruct (f _) as [| n | q | s] eqn:E; intros H; try discriminate H.
  - destruct next as [m | e]; [| discriminate H]. injection H as <-.
    eexists. split; reflexivity.
  - injection H as <-. eexists. split; [reflexivity | discriminate].
Qed.

Lemma fill_rowid_churches (next : result Z) (f : column → value) (r : row) :
  fill_rowid next (columns churches_def) (map f (columns churches_def)) = Ok r →
  ∃ n, r = Integer n :: map f (tail (columns churches_def)) ∧
       (f (mkColumn "id" "INTEGER" false true true NoDefault) = Null → next = Ok n).
Proof.
  unfold churches_def. simpl.
  destruct (f _) as [| n | q | s] eqn:E; intros H; try discriminate H.
  - destruct next as [m | e]; [| discriminate H]. injection H as <-.
    eexists. split; reflexivity.
  - injection H as <-. eexists. split; [reflexivity | discriminate].
Qed.

(** The affinity of a column changes the class of a value, never whether
    there is one. *)
Lemma is_null_apply_affinity {N : Numerics} (aff : affinity) (v : value) :
  is_null (apply_affinity aff v) = is_null v.
Proof.
  destruct aff, v as [| n | q | s]; simpl; try reflexivity;
    try (destruct (numeric_text s) as [[n | q] |]; simpl; try reflexivity);
    unfold integer_if_exact; by destruct (_ && _).
Qed.

Lemma stored_given {N : Numerics} (clock : string) (a : list (string * value))
    (c : column) :
  col_default c = NoDefault →
  stored clock a c = apply_affinity (affinity_of (col_type c)) (given (col_name c) a).
Proof.
  intros H. unfold stored, initial_value, given. rewrite H.
  by destruct (assigned (col_name c) a).
Qed.

Lemma is_null_stored {N : Numerics} (clock : string) (a : list (string * value))
    (c : column) :
  col_default c = NoDefault →
  is_null (stored clock a c) = is_null (given (col_name c) a).
Proof. intros H. by rewrite stored_given, is_null_apply_affinity. Qed.

(** A text with a colon in it, as every [CURRENT_TIMESTAMP] has, is no
    number: it is stored as it is. *)
Lemma looks_numeric_colon (s : string) :
  In ":"%char (list_ascii_of_string s) → looks_numeric s = false.
Proof.
  intros H. unfold looks_numeric. apply not_true_is_false. intros Hall.
  by specialize (proj1 (forallb_forall _ _) Hall _ H).
Qed.

Lemma numeric_affinity_timestamp {N : Numerics} (s : string) :
  In ":"%char (list_ascii_of_string s) →
  apply_affinity NumericAff (Text s) = Text s.
Proof.
  intros H. simpl. unfold numeric_text. by rewrite looks_numeric_colon.
Qed.

(** The fields of a Report row, by the columns. *)
Lemma reports_row_fields (n : Z) (f : column → value) (r : row) :
  r = Integer n :: map f (tail (columns reports_def)) →
  rowid_of reports_def r = Integer n ∧
  field reports_def "church_id" r
  = f (mkColumn "church_id" "INTEGER" true false false NoDefault) ∧
  field reports_def "month" r
  = f (mkColumn "month" "TEXT" true false false NoDefault) ∧
  field reports_def "tithes" r
  = f (mkColumn "tithes" "REAL" true false false NoDefault) ∧
  field reports_def "offerings" r
  = f (mkColumn "offerings" "REAL" true false false NoDefault) ∧
  field reports_def "national_contribution" r
  = f (mkColumn "national_contribution" "REAL" true false false NoDefault) ∧
  field reports_def "created_at" r
  = f (mkColumn "created_at" "TIMESTAMP" false false false CurrentTimestamp).
Proof. intros ->. repeat split. Qed.

Lemma reports_row_not_null (n : Z) (f : column → value) :
  not_null_violation (columns reports_def)
    (Integer n :: map f (tail (columns reports_def))) = None →
  is_null (f (mkColumn "church_id" "INTEGER" true false false NoDefault)) = false ∧
  is_null (f (mkColumn "month" "TEXT" true false false NoDefault)) = false ∧
  is_null (f (mkColumn "tithes" "REAL" true false false NoDefault)) = false ∧
  is_null (f (mkColumn "offerings" "REAL" true false false NoDefault)) = false ∧
  is_null (f (mkColumn "national_contribution" "REAL" true false false NoDefault))
  = false.
Proof.
  unfold reports_def. simpl.
  destruct (is_null (f (mkColumn "church_id" _ _ _ _ _))); [discriminate |].
  destruct (is_null (f (mkColumn "month" _ _ _ _ _))); [discriminate |].
  destruct (is_null (f (mkColumn "tithes" _ _ _ _ _))); [discriminate |].
  destruct (is_null (f (mkColumn "offerings" _ _ _ _ _))); [discriminate |].
  destruct (is_null (f (mkColumn "national_contribution" _ _ _ _ _)));
    [discriminate |].
  done.
Qed.

(** An accepted Report row: an integer rowid; the church reference is the
    one the statement gave, as an integer column holds it; and none of the
    columns declared [NOT NULL] was left out or given as [NULL]. *)
Lemma reports_row_accepted {N : Numerics} (next : result Z) (clock : string)
    (a : list (string * value)) (r : row) :
  fill_rowid next (columns reports_def)
    (map (stored clock a) (columns reports_def)) = Ok r →
  not_null_violation (columns reports_def) r = None →
  (∃ n, rowid_of reports_def r = Integer n) ∧
  field reports_def "church_id" r
  = apply_affinity IntegerAff (given "church_id" a) ∧
  is_null (field reports_def "church_id" r) = false ∧
  is_null (given "church_id" a) = false ∧
  is_null (given "month" a) = false ∧
  is_null (given "tithes" a) = false ∧
  is_null (given "offerings" a) = false ∧
  is_null (given "national_contribution" a) = false ∧
  reference_present r = true ∧
  amounts_present r = true.
Proof.
  intros Hfill Hnn.
  apply fill_rowid_reports in Hfill as (n & Hr & _).
  destruct (reports_row_fields n _ r Hr) as (Hid & Hc & Hm & H1 & H2 & H3 & _).
  rewrite Hr in Hnn.
  apply reports_row_not_null in Hnn as (Nc & Nm & N1 & N2 & N3).
  unfold reference_present, amounts_present.
  rewrite Hc, Hm, H1, H2, H3, Nc, Nm, N1, N2, N3.
  rewrite is_null_stored in Nc, Nm, N1, N2, N3 by reflexivity.
  split; [by exists n |]. split; [by apply stored_given |].
  done.
Qed.

Lemma churches_row_accepted (next : result Z) (f : column → value) (r : row) :
  fill_rowid next (columns churches_def) (map f (columns churches_def)) = Ok r →
  ∃ n, rowid_of churches_def r = Integer n.
Proof.
  intros Hfill. apply fill_rowid_churches in Hfill as (n & -> & _). by exists n.
Qed.

Lemma table_rows_insert_eq (db : gmap string table) (name : string) (t : table) :
  table_rows (<[name := t]> db) name = rows t.
Proof. unfold table_rows. by rewrite lookup_insert_eq. Qed.

Lemma table_rows_insert_ne (db : gmap string table) (name k : string) (t : table) :
  name ≠ k → table_rows (<[name := t]> db) k = table_rows db k.
Proof. intros H. unfold table_rows. by rewrite lookup_insert_ne. Qed.

Lemma table_rows_lookup (db : gmap string table) (name : string) (t : table) :
  db !! name = Some t → table_rows db name = rows t.
Proof. intros H. unfold table_rows. by rewrite H. Qed.

(** *** Rowids *)

Lemma largest_rowid_bound (t : table) (r : row) (n : Z) :
  r ∈ rows t → rowid_of (definition t) r = Integer n →
  ∃ m, largest_rowid t = Some m ∧ n ≤ m.
Proof.
  unfold largest_rowid. generalize (definition t) as d. intros d.
  induction (rows t) as [| r' l IH]; intros Hin Hr.
  - by apply elem_of_nil in Hin.
  - simpl. apply elem_of_cons in Hin as [<- | Hin].
    + rewrite Hr. destruct (fold_right _ _ _); eexists; (split; [reflexivity | lia]).
    + destruct (IH Hin Hr) as (m & Hm & Hle). rewrite Hm.
      destruct (rowid_of d r'); eexists; (split; [reflexivity | lia]).
Qed.

Lemma largest_rowid_in (t : table) (m : Z) :
  largest_rowid t = Some m →
  ∃ r, r ∈ rows t ∧ rowid_of (definition t) r = Integer m.
Proof.
  unfold largest_rowid. generalize (definition t) as d. intros d. revert m.
  induction (rows t) as [| r' l IH]; intros m; simpl; [discriminate |].
  assert (Hrest : ∀ m0, fold_right
            (λ r acc, match rowid_of d r with
                      | Integer n => Some (match acc with
                                           | Some m => Z.max n m
                                           | None => n
                                           end)
                      | _ => acc
                      end) None l = Some m0 →
          ∃ r, r ∈ r' :: l ∧ rowid_of d r = Integer m0).
  { intros m0 H. destruct (IH m0 H) as (r & Hin & Hr). exists r.
    split; [apply elem_of_cons; by right | done]. }
  destruct (rowid_of d r') as [| n | q | s] eqn:E; try exact (Hrest m).
  destruct (fold_right _ _ _) as [m' |] eqn:F.
  - intros [= <-]. destruct (Z.max_spec n m') as [[_ E'] | [_ E']]; rewrite E'.
    + by apply Hrest.
    + exists r'. split; [apply elem_of_cons; by left | done].
  - intros [= <-]. exists r'. split; [apply elem_of_cons; by left | done].
Qed.

(** The rowid the engine picks is above every rowid of the table and,
    with [AUTOINCREMENT], above the largest ever used. *)
Lemma rowid_below_next (t : table) (r : row) (n : Z) :
  r ∈ rows t → rowid_of (definition t) r = Integer n → n < next_rowid t.
Proof.
  intros Hin Hr. destruct (largest_rowid_bound t r n Hin Hr) as (m & Hm & Hle).
  unfold next_rowid. rewrite Hm. destruct (autoincrement _); lia.
Qed.


Lemma assignable_rowid_ok (t : table) (n : Z) :
  assignable_rowid t = Ok n → n = next_rowid t.
Proof.
  unfold assignable_rowid. destruct (has_room t); [| discriminate].
  by intros [= <-].
Qed.

Lemma has_room_intro (t : table) :
  sequence t < 2 ^ 63 - 1 →
  (∀ r m, r ∈ rows t → rowid_of (definition t) r = Integer m → m < 2 ^ 63 - 1) →
  has_room t = true.
Proof.
  intros Hs Hr. unfold has_room. apply andb_true_intro. split.
  - destruct (largest_rowid t) as [m |] eqn:E; [| done].
    destruct (largest_rowid_in t m E) as (r & Hin & Hm).
    apply Z.ltb_lt. exact (Hr r m Hin Hm).
  - apply orb_true_iff. right. apply Z.ltb_lt. exact Hs.
Qed.

(** A table whose largest rowid is the largest of 64 bits is full. *)
Lemma assignable_rowid_full (t : table) (r : row) :
  r ∈ rows t → rowid_of (definition t) r = Integer (2 ^ 63 - 1) →
  assignable_rowid t = Raise (OperationalError "database or disk is full").
Proof.
  intros Hin Hr. unfold assignable_rowid, has_room.
  destruct (largest_rowid_bound t r _ Hin Hr) as (m & -> & Hle).
  destruct (Z.ltb_spec m int64_max) as [Hlt | _]; [| done].
  unfold int64_max in Hlt. lia.
Qed.

(** The rowid the engine picks is not in the table. *)
Lemma next_rowid_free (t : table) (r : row) :
  (∀ r', r' ∈ rows t → ∃ n, rowid_of (definition t) r' = Integer n) →
  rowid_of (definition t) r = Integer (next_rowid t) →
  rowid_taken t r = false.
Proof.
  intros Hall Hr. unfold rowid_taken. rewrite Hr.
  apply not_true_is_false. intros H. apply existsb_exists in H as (r' & Hin & Heq).
  apply list_elem_of_In in Hin. destruct (Hall r' Hin) as [n Hn].
  pose proof (rowid_below_next t r' n Hin Hn).
  rewrite Hn in Heq. simpl in Heq. apply Z.eqb_eq in Heq. lia.
Qed.

Lemma with_table_rowids_ok (name : string) (d : table_def) (db : gmap string table) :
  rowids_ok db → rowids_ok (with_table name d db).
Proof.
  intros H k t r Hk Hin.
  apply with_table_lookup in Hk as [Hk | (_ & _ & ->)]; [by apply (H k t) |].
  by apply elem_of_nil in Hin.
Qed.

Lemma reachable_rowids_ok {N : Numerics} (strict : bool) (db : gmap string table) :
  reachable strict db → rowids_ok db.
Proof.
  induction 1 as [| db db' Hr IH Hs | db db' clock enforce name a Hr IH _ Hi].
  - intros name t r H. by rewrite lookup_empty in H.
  - rewrite setup_database_run in Hs. injection Hs as <-.
    by apply with_table_rowids_ok, with_table_rowids_ok.
  - pose proof (reachable_schema_ok strict db Hr) as Hok.
    apply insert_inv in Hi as (t & r & Ht & Hfill & _ & _ & _ & seq & ->).
    intros k t' r' Hk Hin. destruct (decide (name = k)) as [-> | Hne].
    + rewrite lookup_insert_eq in Hk. injection Hk as <-. simpl in *.
      apply elem_of_app in Hin as [Hin | Hin]; [by apply (IH k t) |].
      apply list_elem_of_singleton in Hin as ->.
      destruct (Hok k t Ht) as [[_ Hd] | [_ Hd]]; rewrite Hd in *.
      * by apply (churches_row_accepted _ _ _ Hfill).
      * destruct (fill_rowid_reports _ _ _ Hfill) as (n & -> & _). by exists n.
    + rewrite lookup_insert_ne in Hk by done. by apply (IH k t').
Qed.

(** *** The foreign key of [reports] *)

Lemma church_exists_lookup (db : gmap string table) (v : value) :
  schema_ok db →
  church_exists db v
  = match db !! "churches" with
    | Some parent => parent_has parent "id" v
    | None => false
    end.
Proof.
  intros Hok. unfold church_exists, table_rows, parent_has.
  destruct (db !! "churches") as [t |] eqn:E; [| done].
  destruct (Hok _ _ E) as [[_ Hd] | [Hd _]]; [by rewrite Hd | discriminate].
Qed.

Lemma foreign_key_ok_reports (db : gmap string table) (r : row) :
  schema_ok db →
  is_null (field reports_def "church_id" r) = false →
  forallb (foreign_key_ok db reports_def r) (foreign_keys reports_def)
  = resolves db r.
Proof.
  intros Hok Hnn. unfold resolves. rewrite (church_exists_lookup db _ Hok).
  simpl. unfold foreign_key_ok. simpl fk_column. simpl fk_table.
  simpl fk_parent_column. rewrite Hnn. simpl. by rewrite andb_true_r.
Qed.

Lemma church_exists_null (db : gmap string table) : church_exists db Null = false.
Proof.
  unfold church_exists. induction (table_rows db "churches") as [| r l IH]; [done |].
  simpl. rewrite IH. by destruct (field churches_def "id" r).
Qed.

(** With the pragma on, a Report for a church that is not there fails
    where the same statement without the pragma would have been accepted,
    and fails as without the pragma otherwise. *)
Lemma insert_orphan_report {N : Numerics} (clock : string)
    (a : list (string * value)) (db : gmap string table) (c : Z) :
  schema_ok db →
  given "church_id" a = Integer c →
  church_exists db (Integer c) = false →
  insert clock true "reports" a db
  = match insert clock false "reports" a db with
    | Ok _ => Raise (IntegrityError "FOREIGN KEY constraint failed")
    | Raise e => Raise e
    end.
Proof.
  intros Hok Hg Hex. unfold insert.
  destruct (db !! "reports") as [t |] eqn:Ht; [| done].
  assert (Hd : definition t = reports_def).
  { destruct (Hok _ _ Ht) as [[H _] | [_ H]]; [discriminate | done]. }
  rewrite Hd.
  destruct (unknown_column reports_def a); [done |].
  destruct (existsb unbindable (map snd a)); [done |].
  destruct (fill_rowid _ _ _) as [r |] eqn:Hfill; [| done].
  unfold mbind, result_bind.
  destruct (not_null_violation (columns reports_def) r) eqn:Hnn; [done |].
  destruct (rowid_taken t r); [done |].
  destruct (reports_row_accepted _ _ _ _ Hfill Hnn) as (_ & Hc & Hcn & _).
  rewrite (foreign_key_ok_reports db r Hok Hcn).
  unfold resolves. rewrite Hc, Hg. simpl. by rewrite Hex.
Qed.

(** On a default connection the orphan goes in. *)
Lemma insert_orphan_stored {N : Numerics} (clock : string)
    (a : list (string * value)) (db db' : gmap string table) (c : Z) :
  schema_ok db →
  given "church_id" a = Integer c →
  church_exists db (Integer c) = false →
  insert clock false "reports" a db = Ok db' →
  ∃ r, table_rows db' "reports" = table_rows db "reports" ++ [r] ∧
       field reports_def "church_id" r = Integer c ∧
       resolves db' r = false.
Proof.
  intros Hok Hg Hex Hi.
  apply insert_inv in Hi as (t & r & Ht & Hfill & Hnn & _ & _ & seq & ->).
  assert (Hd : definition t = reports_def).
  { destruct (Hok _ _ Ht) as [[H _] | [_ H]]; [discriminate | done]. }
  rewrite Hd in *.
  destruct (reports_row_accepted _ _ _ _ Hfill Hnn) as (_ & Hc & _).
  rewrite Hg in Hc. simpl in Hc.
  exists r. split.
  { by rewrite table_rows_insert_eq, (table_rows_lookup db "reports" t). }
  split; [exact Hc |].
  unfold resolves, church_exists. rewrite Hc.
  rewrite table_rows_insert_ne by done. exact Hex.
Qed.

Lemma church_exists_mono (db db' : gmap string table) (v : value) (r : row) :
  table_rows db' "churches" = table_rows db "churches" ++ [r] →
  church_exists db v = true → church_exists db' v = true.
Proof.
  unfold church_exists. intros -> H. rewrite existsb_app, H. done.
Qed.

Lemma church_exists_same (db db' : gmap string table) (v : value) :
  table_rows db' "churches" = table_rows db "churches" →
  church_exists db' v = church_exists db v.
Proof. unfold church_exists. by intros ->. Qed.

(** Over connections that enforce foreign keys every Report keeps
    resolving: rows are only added. *)
Lemma strict_reports_resolve {N : Numerics} (db : gmap string table) :
  reachable true db →
  ∀ r, r ∈ table_rows db "reports" → resolves db r = true.
Proof.
  induction 1 as [| db db' Hr IH Hs | db db' clock enforce name a Hr IH He Hi].
  - intros r H. by apply elem_of_nil in H.
  - intros r. unfold resolves.
    rewrite (setup_database_rows db db' "reports" Hs).
    rewrite (church_exists_same db db') by by apply setup_database_rows.
    apply IH.
  - rewrite (He eq_refl) in Hi. clear He enforce.
    pose proof (reachable_schema_ok true db Hr) as Hok.
    apply insert_inv in Hi as (t & r0 & Ht & Hfill & Hnn & _ & Hfk & seq & ->).
    specialize (Hfk eq_refl).
    destruct (Hok name t Ht) as [[-> Hd] | [-> Hd]]; rewrite Hd in *.
    + intros r. rewrite table_rows_insert_ne by done. intros Hin.
      unfold resolves. apply (church_exists_mono db _ _ r0); [| by apply IH].
      by rewrite table_rows_insert_eq, (table_rows_lookup db "churches" t).
    + assert (Hsame : ∀ v, church_exists
                (<["reports" := mkTable reports_def (rows t ++ [r0]) seq]> db) v
              = church_exists db v).
      { intros v. apply church_exists_same. by apply table_rows_insert_ne. }
      intros r. rewrite table_rows_insert_eq. simpl. intros Hin.
      unfold resolves. rewrite Hsame.
      apply elem_of_app in Hin as [Hin | Hin].
      * apply IH. by rewrite (table_rows_lookup db "reports" t).
      * apply list_elem_of_singleton in Hin as ->.
        destruct (reports_row_accepted _ _ _ _ Hfill Hnn) as (_ & _ & Hcn & _).
        by rewrite (foreign_key_ok_reports db r0 Hok Hcn) in Hfk.
Qed.

(** An integer of less than 54 bits is exact as a real. *)
Lemma real_of_integer_exact (k : Z) :
  Z.abs k < 2 ^ 53 → real_of_integer k = inject_Z k.
Proof.
  intros Hk. unfold real_of_integer.
  destruct (Z.leb_spec (Z.log2 (Z.abs k) + 1 - 53) 0) as [_ | Hlt]; [done |].
  exfalso. destruct (Z.eq_dec (Z.abs k) 0) as [E | E].
  - rewrite E in Hlt. simpl in Hlt. lia.
  - assert (Hlog : Z.log2 (Z.abs k) < 53) by (apply Z.log2_lt_pow2; lia).
    lia.
Qed.

(** A report submission goes in whatever the three amounts are, if only
    they are there and the table has a rowid left; with the pragma on its
    church has to be there.  The amounts are stored as a [REAL] column
    holds them. *)
Lemma insert_report_values {N : Numerics} (strict : bool) (db : gmap string table)
    (clock : string) (enforce : bool) (c : Z) (month : string) (v1 v2 v3 : value)
    (t : table) :
  reachable strict db →
  db !! "reports" = Some t →
  - 2 ^ 63 ≤ c ≤ 2 ^ 63 - 1 →
  sequence t < 2 ^ 63 - 1 →
  (∀ r m, r ∈ rows t → field reports_def "id" r = Integer m → m < 2 ^ 63 - 1) →
  (enforce = true → church_exists db (Integer c) = true) →
  is_null v1 = false → is_null v2 = false → is_null v3 = false →
  unbindable v1 = false → unbindable v2 = false → unbindable v3 = false →
  ∃ db' n created,
    insert clock enforce "reports"
      [("church_id", Integer c); ("month", Text month); ("tithes", v1);
       ("offerings", v2); ("national_contribution", v3)] db
    = Ok db' ∧
    table_rows db' "reports"
    = table_rows db "reports" ++
      [[Integer n; Integer c; Text month; apply_affinity RealAff v1;
        apply_affinity RealAff v2; apply_affinity RealAff v3;
        Null; Null; Null; created]].
Proof.
  intros Hr Ht Hc Hseq Hrows Hfk H1 H2 H3 B1 B2 B3.
  pose proof (reachable_schema_ok strict db Hr) as Hok.
  pose proof (reachable_rowids_ok strict db Hr) as Hids.
  assert (Hd : definition t = reports_def).
  { destruct (Hok _ _ Ht) as [[H _] | [_ H]]; [discriminate | done]. }
  set (a := [("church_id", Integer c); ("month", Text month); ("tithes", v1);
             ("offerings", v2); ("national_contribution", v3)]).
  set (r := [Integer (next_rowid t); Integer c; Text month;
             apply_affinity RealAff v1; apply_affinity RealAff v2;
             apply_affinity RealAff v3; Null; Null; Null;
             apply_affinity NumericAff (Text clock)]).
  assert (Hroom : assignable_rowid t = Ok (next_rowid t)).
  { unfold assignable_rowid. rewrite has_room_intro; [done | done |].
    rewrite Hd. exact Hrows. }
  assert (Hbind : existsb unbindable (map snd a) = false).
  { unfold a. cbn [map snd existsb]. rewrite B1, B2, B3.
    cbn [unbindable orb]. rewrite orb_false_r. apply orb_false_intro.
    - apply Z.ltb_ge. unfold int64_min. lia.
    - apply Z.ltb_ge. unfold int64_max. lia. }
  assert (Hfree : rowid_taken t r = false).
  { apply next_rowid_free; [intros r' Hin; by apply (Hids "reports" t) |].
    by rewrite Hd. }
  assert (Hnn : not_null_violation (columns reports_def) r = None).
  { unfold r, reports_def.
    cbn [not_null_violation columns col_not_null col_name andb is_null].
    by rewrite !is_null_apply_affinity, H1, H2, H3. }
  assert (Hfkok : enforce &&
            negb (forallb (foreign_key_ok db reports_def r) (foreign_keys reports_def))
            = false).
  { destruct enforce; [| done].
    rewrite (foreign_key_ok_reports db r Hok) by done.
    unfold resolves. change (field reports_def "church_id" r) with (Integer c).
    by rewrite (Hfk eq_refl). }
  eexists. exists (next_rowid t), (apply_affinity NumericAff (Text clock)). split.
  - unfold insert. rewrite Ht, Hd.
    change (unknown_column reports_def a) with (@None string).
    cbv beta iota. rewrite Hbind, Hroom.
    change (fill_rowid (Ok (next_rowid t)) (columns reports_def)
              (map (stored clock a) (columns reports_def)))
      with (Ok r).
    unfold mbind, result_bind. rewrite Hnn, Hfree, Hfkok. reflexivity.
  - rewrite table_rows_insert_eq. simpl rows.
    by rewrite (table_rows_lookup db "reports" t).
Qed.

(** C3 as stated fails: on the connection [sqlite3.connect] gives, the
    only kind the source opens, a Report for church 99 goes into a store
    without churches, and its church reference resolves to nothing. *)
Lemma orphan_report_is_accepted :
  ∃ db' r,
    church_exists fresh_store (Integer 99) = false ∧
    execute "2024-03-07 09:05:00" (Insert "reports" (a_report 99 100))
      (connect fresh_store) = Ok (mkConnection false db') ∧
    reachable false db' ∧
    r ∈ table_rows db' "reports" ∧
    resolves db' r = false.
Proof.
  eexists. eexists.
  split; [reflexivity |]. split; [reflexivity |]. split; [| split].
  - apply (reach_insert false fresh_store _ "2024-03-07 09:05:00" false
             "reports" (a_report 99 100)); [| discriminate | reflexivity].
    apply (reach_setup false ∅ fresh_store); [apply reach_new | reflexivity].
  - rewrite table_rows_insert_eq. simpl. apply list_elem_of_singleton. reflexivity.
  - reflexivity.
Qed.

(** C3, amended. [reports.church_id] is declared a foreign key into
    [churches.id], and the store checks it only on a connection that has
    the pragma [foreign_keys] on.  Take a Report whose [church_id] is an
    integer that is the id of no Church row.  With the pragma on its insert
    is rejected, with the foreign-key violation whenever nothing else is
    wrong with the row.  Without the pragma, as on the connection the
    source opens, the store does not look: an insert that is accepted
    leaves a Report row with that [church_id], which resolves to nothing,
    and a report submission with the values in the types of the columns is
    accepted, as long as the church reference fits 64 bits and the table
    has a rowid left.  In the states reached over connections with the
    pragma alone every Report's church reference resolves to a Church
    row. *)
Theorem foreign_key_rejects_with_pragma {N : Numerics} (strict : bool)
    (db : gmap string table) (clock : string) (a : list (string * value))
    (c : Z) :
  reachable strict db →
  given "church_id" a = Integer c →
  church_exists db (Integer c) = false →
  (∃ e, insert clock true "reports" a db = Raise e) ∧
  (∀ db', insert clock false "reports" a db = Ok db' →
          insert clock true "reports" a db
          = Raise (IntegrityError "FOREIGN KEY constraint failed") ∧
          ∃ r, table_rows db' "reports" = table_rows db "reports" ++ [r] ∧
               field reports_def "church_id" r = Integer c ∧
               resolves db' r = false) ∧
  (∀ month q1 q2 q3 t,
     db !! "reports" = Some t →
     - 2 ^ 63 ≤ c ≤ 2 ^ 63 - 1 →
     sequence t < 2 ^ 63 - 1 →
     (∀ r m, r ∈ rows t → field reports_def "id" r = Integer m → m < 2 ^ 63 - 1) →
     ∃ db' n created,
       insert clock false "reports"
         [("church_id", Integer c); ("month", Text month); ("tithes", Real q1);
          ("offerings", Real q2); ("national_contribution", Real q3)] db
       = Ok db' ∧
       table_rows db' "reports"
       = table_rows db "reports" ++
         [[Integer n; Integer c; Text month; Real q1; Real q2; Real q3;
           Null; Null; Null; created]]) ∧
  (strict = true →
   ∀ r, r ∈ table_rows db "reports" → resolves db r = true).
Proof.
  intros Hr Hg Hex.
  pose proof (reachable_schema_ok strict db Hr) as Hok.
  pose proof (insert_orphan_report clock a db c Hok Hg Hex) as Hrun.
  split; [| split; [| split]].
  - rewrite Hrun. destruct (insert clock false "reports" a db); by eexists.
  - intros db' Hoff. split; [by rewrite Hrun, Hoff |].
    by apply (insert_orphan_stored clock a db db' c).
  - intros month q1 q2 q3 t Ht Hc Hseq Hrows.
    by apply (insert_report_values strict db clock false c month
                (Real q1) (Real q2) (Real q3) t).
  - intros ->. by apply strict_reports_resolve.
Qed.

Lemma foreign_key_rejects_with_pragma_witness :
  (∃ e, insert "2024-03-07 09:05:00" true "reports" (a_report 99 100)
          store_with_church = Raise e) ∧
  (∀ db', insert "2024-03-07 09:05:00" false "reports" (a_report 99 100)
            store_with_church = Ok db' →
          insert "2024-03-07 09:05:00" true "reports" (a_report 99 100)
            store_with_church
          = Raise (IntegrityError "FOREIGN KEY constraint failed") ∧
          ∃ r, table_rows db' "reports"
               = table_rows store_with_church "reports" ++ [r] ∧
               field reports_def "church_id" r = Integer 99 ∧
               resolves db' r = false) ∧
  (∀ month q1 q2 q3 t,
     store_with_church !! "reports" = Some t →
     - 2 ^ 63 ≤ 99 ≤ 2 ^ 63 - 1 →
     sequence t < 2 ^ 63 - 1 →
     (∀ r m, r ∈ rows t → field reports_def "id" r = Integer m → m < 2 ^ 63 - 1) →
     ∃ db' n created,
       insert "2024-03-07 09:05:00" false "reports"
         [("church_id", Integer 99); ("month", Text month); ("tithes", Real q1);
          ("offerings", Real q2); ("national_contribution", Real q3)]
         store_with_church
       = Ok db' ∧
       table_rows db' "reports"
       = table_rows store_with_church "reports" ++
         [[Integer n; Integer 99; Text month; Real q1; Real q2; Real q3;
           Null; Null; Null; created]]) ∧
  (true = true →
   ∀ r, r ∈ table_rows store_with_church "reports" →
        resolves store_with_church r = true).
Proof.
  apply (foreign_key_rejects_with_pragma true store_with_church
           "2024-03-07 09:05:00" (a_report 99 100) 99);
    [| reflexivity | reflexivity].
  apply (reach_insert true fresh_store store_with_church
           "2024-03-07 09:05:00" true "churches" a_church);
    [| reflexivity | reflexivity].
  apply (reach_setup true ∅ fresh_store); [apply reach_new | reflexivity].
Defined.

(** *** The amounts of a Report *)

Lemma reports_amounts_present {N : Numerics} (strict : bool)
    (db : gmap string table) :
  reachable strict db →
  ∀ r, r ∈ table_rows db "reports" → amounts_present r = true.
Proof.
  induction 1 as [| db db' Hr IH Hs | db db' clock enforce name a Hr IH _ Hi].
  - intros r H. by apply elem_of_nil in H.
  - intros r. rewrite (setup_database_rows db db' "reports" Hs). apply IH.
  - pose proof (reachable_schema_ok strict db Hr) as Hok.
    apply insert_inv in Hi as (t & r0 & Ht & Hfill & Hnn & _ & _ & seq & ->).
    destruct (Hok name t Ht) as [[-> Hd] | [-> Hd]]; rewrite Hd in *.
    + intros r. rewrite table_rows_insert_ne by done. apply IH.
    + intros r. rewrite table_rows_insert_eq. simpl. intros Hin.
      apply elem_of_app in Hin as [Hin | Hin].
      * apply IH. by rewrite (table_rows_lookup db "reports" t).
      * apply list_elem_of_singleton in Hin as ->.
        by destruct (reports_row_accepted _ _ _ _ Hfill Hnn)
          as (_ & _ & _ & _ & _ & _ & _ & _ & _ & H).
Qed.

(** A statement that leaves an amount out, or gives [NULL] for it, is
    rejected. *)
Lemma insert_report_null_amount {N : Numerics} (clock : string) (enforce : bool)
    (a : list (string * value)) (db : gmap string table) :
  schema_ok db →
  is_null (given "tithes" a) || is_null (given "offerings" a)
    || is_null (given "national_contribution" a) = true →
  ∃ e, insert clock enforce "reports" a db = Raise e.
Proof.
  intros Hok Hnull.
  destruct (insert clock enforce "reports" a db) as [db' |] eqn:Hi; [| by eexists].
  exfalso.
  apply insert_inv in Hi as (t & r & Ht & Hfill & Hnn & _).
  assert (Hd : definition t = reports_def).
  { destruct (Hok _ _ Ht) as [[H _] | [_ H]]; [discriminate | done]. }
  rewrite Hd in *.
  destruct (reports_row_accepted _ _ _ _ Hfill Hnn)
    as (_ & _ & _ & _ & _ & H1 & H2 & H3 & _).
  by rewrite H1, H2, H3 in Hnull.
Qed.

(** C7 as stated fails: with its church in place, a Report with tithes of
    minus five goes in, the pragma on or off, and the store then holds a
    Report row with a negative amount. *)
Lemma negative_tithes_are_accepted :
  ∃ db' r,
    insert "2024-03-07 09:05:00" true "reports" (a_report 1 (-5 # 1))
      store_with_church = Ok db' ∧
    insert "2024-03-07 09:05:00" false "reports" (a_report 1 (-5 # 1))
      store_with_church = Ok db' ∧
    reachable true db' ∧
    r ∈ table_rows db' "reports" ∧
    field reports_def "tithes" r = Real (-5 # 1) ∧
    is_negative (field reports_def "tithes" r) = true.
Proof.
  eexists. eexists.
  split; [reflexivity |]. split; [reflexivity |]. split; [| split].
  - apply (reach_insert true store_with_church _ "2024-03-07 09:05:00" true
             "reports" (a_report 1 (-5 # 1))); [| reflexivity | reflexivity].
    apply (reach_insert true fresh_store store_with_church
             "2024-03-07 09:05:00" true "churches" a_church);
      [| reflexivity | reflexivity].
    apply (reach_setup true ∅ fresh_store); [apply reach_new | reflexivity].
  - rewrite table_rows_insert_eq. simpl. apply list_elem_of_singleton. reflexivity.
  - split; reflexivity.
Qed.

(** C7, amended. The three amounts of a Report are declared [REAL NOT
    NULL] and nothing more: in every state of the store every Report row
    has its tithes, offerings and national contribution, an insert that
    leaves one of them out or [NULL] is rejected, and the sign is not
    constrained: a report submission with any three reals for amounts,
    negative ones included, is accepted and stored with these amounts, as
    long as the church reference fits 64 bits and the table has a rowid
    left (and, with the pragma on, the church is there).  Amounts given as
    integers are accepted as well and stored as reals. *)
Theorem report_amounts_not_null_only {N : Numerics} (strict : bool)
    (db : gmap string table) :
  reachable strict db →
  (∀ r, r ∈ table_rows db "reports" → amounts_present r = true) ∧
  (∀ clock enforce a,
     is_null (given "tithes" a) || is_null (given "offerings" a)
       || is_null (given "national_contribution" a) = true →
     ∃ e, insert clock enforce "reports" a db = Raise e) ∧
  (∀ clock enforce church month q1 q2 q3 t,
     db !! "reports" = Some t →
     - 2 ^ 63 ≤ church ≤ 2 ^ 63 - 1 →
     sequence t < 2 ^ 63 - 1 →
     (∀ r m, r ∈ rows t → field reports_def "id" r = Integer m → m < 2 ^ 63 - 1) →
     (enforce = true → church_exists db (Integer church) = true) →
     ∃ db' n created,
       insert clock enforce "reports"
         [("church_id", Integer church); ("month", Text month);
          ("tithes", Real q1); ("offerings", Real q2);
          ("national_contribution", Real q3)] db
       = Ok db' ∧
       table_rows db' "reports"
       = table_rows db "reports" ++
         [[Integer n; Integer church; Text month; Real q1; Real q2; Real q3;
           Null; Null; Null; created]]) ∧
  (∀ clock enforce church month k1 k2 k3 t,
     db !! "reports" = Some t →
     - 2 ^ 63 ≤ church ≤ 2 ^ 63 - 1 →
     sequence t < 2 ^ 63 - 1 →
     (∀ r m, r ∈ rows t → field reports_def "id" r = Integer m → m < 2 ^ 63 - 1) →
     (enforce = true → church_exists db (Integer church) = true) →
     Z.abs k1 < 2 ^ 53 → Z.abs k2 < 2 ^ 53 → Z.abs k3 < 2 ^ 53 →
     ∃ db' n created,
       insert clock enforce "reports"
         [("church_id", Integer church); ("month", Text month);
          ("tithes", Integer k1); ("offerings", Integer k2);
          ("national_contribution", Integer k3)] db
       = Ok db' ∧
       table_rows db' "reports"
       = table_rows db "reports" ++
         [[Integer n; Integer church; Text month; Real (inject_Z k1);
           Real (inject_Z k2); Real (inject_Z k3);
           Null; Null; Null; created]]).
Proof.
  intros Hr. split; [| split; [| split]].
  - by apply (reports_amounts_present strict).
  - intros clock enforce a Hnull.
    by apply insert_report_null_amount; [apply (reachable_schema_ok strict) |].
  - intros clock enforce church month q1 q2 q3 t Ht Hc Hseq Hrows Hfk.
    by apply (insert_report_values strict db clock enforce church month
                (Real q1) (Real q2) (Real q3) t).
  - intros clock enforce church month k1 k2 k3 t Ht Hc Hseq Hrows Hfk K1 K2 K3.
    assert (Hb : ∀ k, Z.abs k < 2 ^ 53 → unbindable (Integer k) = false).
    { intros k Hk. simpl. apply orb_false_intro; apply Z.ltb_ge.
      - unfold int64_min. lia.
      - unfold int64_max. lia. }
    destruct (insert_report_values strict db clock enforce church month
                (Integer k1) (Integer k2) (Integer k3) t)
      as (db' & n & created & Hi & Hrow); auto.
    exists db', n, created. split; [exact Hi |].
    rewrite Hrow. cbn [apply_affinity].
    by rewrite !real_of_integer_exact.
Qed.

Lemma report_amounts_not_null_only_witness :
  (∀ r, r ∈ table_rows store_with_church "reports" → amounts_present r = true) ∧
  (∀ clock enforce a,
     is_null (given "tithes" a) || is_null (given "offerings" a)
       || is_null (given "national_contribution" a) = true →
     ∃ e, insert clock enforce "reports" a store_with_church = Raise e) ∧
  (∀ clock enforce church month q1 q2 q3 t,
     store_with_church !! "reports" = Some t →
     - 2 ^ 63 ≤ church ≤ 2 ^ 63 - 1 →
     sequence t < 2 ^ 63 - 1 →
     (∀ r m, r ∈ rows t → field reports_def "id" r = Integer m → m < 2 ^ 63 - 1) →
     (enforce = true → church_exists store_with_church (Integer church) = true) →
     ∃ db' n created,
       insert clock enforce "reports"
         [("church_id", Integer church); ("month", Text month);
          ("tithes", Real q1); ("offerings", Real q2);
          ("national_contribution", Real q3)] store_with_church
       = Ok db' ∧
       table_rows db' "reports"
       = table_rows store_with_church "reports" ++
         [[Integer n; Integer church; Text month; Real q1; Real q2; Real q3;
           Null; Null; Null; created]]) ∧
  (∀ clock enforce church month k1 k2 k3 t,
     store_with_church !! "reports" = Some t →
     - 2 ^ 63 ≤ church ≤ 2 ^ 63 - 1 →
     sequence t < 2 ^ 63 - 1 →
     (∀ r m, r ∈ rows t → field reports_def "id" r = Integer m → m < 2 ^ 63 - 1) →
     (enforce = true → church_exists store_with_church (Integer church) = true) →
     Z.abs k1 < 2 ^ 53 → Z.abs k2 < 2 ^ 53 → Z.abs k3 < 2 ^ 53 →
     ∃ db' n created,
       insert clock enforce "reports"
         [("church_id", Integer church); ("month", Text month);
          ("tithes", Integer k1); ("offerings", Integer k2);
          ("national_contribution", Integer k3)] store_with_church
       = Ok db' ∧
       table_rows db' "reports"
       = table_rows store_with_church "reports" ++
         [[Integer n; Integer church; Text month; Real (inject_Z k1);
           Real (inject_Z k2); Real (inject_Z k3);
           Null; Null; Null; created]]).
Proof.
  apply (report_amounts_not_null_only true store_with_church).
  apply (reach_insert true fresh_store store_with_church
           "2024-03-07 09:05:00" true "churches" a_church);
    [| reflexivity | reflexivity].
  apply (reach_setup true ∅ fresh_store); [apply reach_new | reflexivity].
Defined.

(** ** More on the handler *)

Lemma open_wb_on_dir (t : datetime) (w : world) :
  fs w !! uploads_dir = Some Dir →
  fs w !! file_path_at t = Some Dir →
  open_wb (file_path_at t) w = (Raise IsADirectoryError, w).
Proof.
  intros Hd Hf. unfold open_wb.
  rewrite parent_file_path_at, fs_lookup_file_path_at. simpl.
  by rewrite Hd, Hf.
Qed.

Lemma do_POST_target_is_dir (w : world) (v : string) (n : Z) :
  path w = upload_route →
  Py.message_get "Content-Length" (headers w) = Some v →
  Py.int v = Some n →
  -1 ≤ n ≤ ssize_t_max →
  fs w !! uploads_dir = None ∨ fs w !! uploads_dir = Some Dir →
  fs w !! file_path_at (now w) = Some Dir →
  do_POST w = (Raise IsADirectoryError, upload_stuck n w).
Proof.
  intros Hp Hh Hi Hn Hu Hf. unfold do_POST.
  rewrite bind_run. unfold gets at 1. cbv beta iota.
  rewrite Hp, String.eqb_refl.
  rewrite bind_run. unfold headers_getitem, gets at 1. cbv beta iota.
  rewrite Hh.
  step (int_run v n w Hi).
  step (rfile_read_run n w (proj1 Hn) (proj2 Hn)).
  rewrite bind_run. unfold datetime_now, gets at 1. cbv beta iota.
  change (now (set_rfile (unread_bytes n (rfile w)) w)) with (now w).
  set (w1 := set_rfile (unread_bytes n (rfile w)) w).
  step (Path_mkdir_run w1 Hu).
  set (w2 := set_fs (<[uploads_dir:=Dir]> (fs w1)) w1).
  assert (Hd2 : fs w2 !! uploads_dir = Some Dir) by apply lookup_insert_eq.
  assert (Hf2 : fs w2 !! file_path_at (now w) = Some Dir).
  { unfold w2. simpl. rewrite lookup_insert_ne; [done |].
    intros E. by apply (file_path_at_not_uploads_dir (now w)). }
  by step (open_wb_on_dir (now w) w2 Hd2 Hf2).
Qed.

(** Every way a request for the upload route can go. *)
Lemma do_POST_upload_cases (w : world) :
  path w = upload_route →
  do_POST w = (Raise TypeError, w) ∨
  do_POST w = (Raise ValueError, w) ∨
  do_POST w = (Raise OverflowError, w) ∨
  (∃ n c, -1 ≤ n ≤ ssize_t_max ∧ fs w !! uploads_dir = Some (File c) ∧
          do_POST w = (Raise FileExistsError, set_rfile (unread_bytes n (rfile w)) w)) ∨
  (∃ n, -1 ≤ n ≤ ssize_t_max ∧
        (fs w !! uploads_dir = None ∨ fs w !! uploads_dir = Some Dir) ∧
        fs w !! file_path_at (now w) = Some Dir ∧
        do_POST w = (Raise IsADirectoryError, upload_stuck n w)) ∨
  (∃ n, -1 ≤ n ≤ ssize_t_max ∧ storage_ready (now w) (fs w) = true ∧
        do_POST w = (Ok tt, upload_done n w)).
Proof.
  intros Hp.
  destruct (Py.message_get "Content-Length" (headers w)) as [v |] eqn:Hh;
    [| left; by apply do_POST_length_missing].
  destruct (Py.int v) as [n |] eqn:Hi;
    [| right; left; by apply (do_POST_length_invalid w v)].
  destruct (Z.lt_ge_cases n ssize_t_min) as [Hmin | Hmin];
    [right; right; left; apply (do_POST_length_overflow w v n); auto |].
  destruct (Z.lt_ge_cases ssize_t_max n) as [Hmax | Hmax];
    [right; right; left; apply (do_POST_length_overflow w v n); auto |].
  destruct (Z.lt_ge_cases n (-1)) as [Hn | Hn];
    [right; left; by apply (do_POST_length_below_minus_one w v n) |].
  assert (Hr : -1 ≤ n ≤ ssize_t_max) by done.
  do 3 right.
  destruct (fs w !! uploads_dir) as [[c |] |] eqn:Hu.
  - left. exists n, c. split; [done |]. split; [done |].
    by apply (do_POST_uploads_is_a_file w v n c).
  - destruct (fs w !! file_path_at (now w)) as [[c |] |] eqn:Hf.
    + do 2 right. exists n. split; [done |]. split.
      * unfold storage_ready. by rewrite Hu, Hf.
      * apply (do_POST_stores w v); auto. unfold storage_ready. by rewrite Hu, Hf.
    + right. left. exists n. split; [done |]. split; [auto |].
      split; [done |]. apply (do_POST_target_is_dir w v); auto.
    + do 2 right. exists n. split; [done |]. split.
      * unfold storage_ready. by rewrite Hu, Hf.
      * apply (do_POST_stores w v); auto. unfold storage_ready. by rewrite Hu, Hf.
  - destruct (fs w !! file_path_at (now w)) as [[c |] |] eqn:Hf.
    + do 2 right. exists n. split; [done |]. split.
      * unfold storage_ready. by rewrite Hu, Hf.
      * apply (do_POST_stores w v); auto. unfold storage_ready. by rewrite Hu, Hf.
    + right. left. exists n. split; [done |]. split; [auto |].
      split; [done |]. apply (do_POST_target_is_dir w v); auto.
    + do 2 right. exists n. split; [done |]. split.
      * unfold storage_ready. by rewrite Hu, Hf.
      * apply (do_POST_stores w v); auto. unfold storage_ready. by rewrite Hu, Hf.
Qed.


Lemma sent_nothing (w w' : world) (out : list wire) :
  wfile w' = wfile w → sent w w' out → out = [].
Proof.
  unfold sent. intros -> H. symmetry in H.
  rewrite <- (app_nil_r (wfile w)) in H at 2.
  apply app_inv_head in H. by apply app_eq_nil in H as [_ ->].
Qed.

(** X1. Whatever the request and however the call ends, [do_POST] leaves
    every entry of the file system as it was, except the directory
    [uploads] and the file named after the clock; it removes nothing, and
    [uploads] is either as before or was missing and is now a directory. *)
Theorem do_POST_touches_only_upload_entries (w w' : world) (r : result unit) :
  do_POST w = (r, w') →
  (∀ p, p ≠ uploads_dir → p ≠ file_path_at (now w) → fs w' !! p = fs w !! p) ∧
  (∀ p, is_Some (fs w !! p) → is_Some (fs w' !! p)) ∧
  (fs w' !! uploads_dir = fs w !! uploads_dir ∨
   (fs w !! uploads_dir = None ∧ fs w' !! uploads_dir = Some Dir)).
Proof.
  intros Hrun.
  assert (Hmk : ∀ f : gmap Path node,
            f !! uploads_dir = None ∨ f !! uploads_dir = Some Dir →
            <[uploads_dir := Dir]> f !! uploads_dir = f !! uploads_dir ∨
            (f !! uploads_dir = None ∧ <[uploads_dir := Dir]> f !! uploads_dir = Some Dir)).
  { intros f [H | H]; rewrite lookup_insert_eq; [right | left]; auto. }
  assert (Hsome : ∀ (f : gmap Path node) q x p,
            is_Some (f !! p) → is_Some (<[q := x]> f !! p)).
  { intros f q x p H. destruct (decide (q = p)) as [-> | Hne].
    - rewrite lookup_insert_eq. by eexists.
    - by rewrite lookup_insert_ne. }
  destruct (String.eqb_spec (path w) upload_route) as [Hp | Hp].
  - destruct (do_POST_upload_cases w Hp)
      as [H | [H | [H | [(n & c & _ & _ & H) | [(n & _ & Hu & Hf & H) | (n & _ & Hs & H)]]]]];
      rewrite H in Hrun; injection Hrun as <- <-; simpl; auto.
    + split; [| split].
      * intros p Hpu _. by rewrite lookup_insert_ne.
      * intros p. apply Hsome.
      * by apply Hmk.
    + destruct (storage_ready_inv _ _ Hs) as [Hu _].
      split; [| split].
      * intros p Hpu Hpf. by rewrite !lookup_insert_ne.
      * intros p Hp'. by apply Hsome, Hsome.
      * rewrite lookup_insert_ne by apply file_path_at_not_uploads_dir.
        by apply Hmk.
  - rewrite (do_POST_route_miss w Hp) in Hrun. injection Hrun as <- <-.
    simpl. auto.
Qed.

Lemma do_POST_touches_only_upload_entries_witness :
  (∀ p, p ≠ uploads_dir → p ≠ file_path_at (now upload_abc) →
        fs (upload_done 3 upload_abc) !! p = fs upload_abc !! p) ∧
  (∀ p, is_Some (fs upload_abc !! p) →
        is_Some (fs (upload_done 3 upload_abc) !! p)) ∧
  (fs (upload_done 3 upload_abc) !! uploads_dir = fs upload_abc !! uploads_dir ∨
   (fs upload_abc !! uploads_dir = None ∧
    fs (upload_done 3 upload_abc) !! uploads_dir = Some Dir)).
Proof.
  apply (do_POST_touches_only_upload_entries upload_abc
           (upload_done 3 upload_abc) (Ok tt)).
  vm_compute. reflexivity.
Defined.









(** X6. A [Content-Length] below [-1] passes [int] and is refused by
    [read], with [ValueError] down to the smallest [Py_ssize_t] and with
    [OverflowError] below it: either way nothing is read, nothing is sent
    and the file system is untouched. *)
Theorem upload_length_below_minus_one_raises (w : world) (v : string) (n : Z) :
  path w = upload_route →
  Py.message_get "Content-Length" (headers w) = Some v →
  Py.int v = Some n →
  n < -1 →
  do_POST w
  = (Raise (if n <? - 2 ^ 63 then OverflowError else ValueError), w) ∧
  (∀ r w' out, do_POST w = (r, w') →
     wfile w' = wfile w ++ headers_buffer w ++ out → out = []) ∧
  (∀ code body, ¬ answers w code body).
Proof.
  intros Hp Hh Hi Hn.
  assert (Hrun : do_POST w
    = (Raise (if n <? - 2 ^ 63 then OverflowError else ValueError), w)).
  { destruct ssize_t_bounds as [Emin Emax].
    destruct (Z.ltb_spec n (- 2 ^ 63)) as [Hlow | Hlow].
    - apply (do_POST_length_overflow w v n); [done | done | done |]. left. lia.
    - apply (do_POST_length_below_minus_one w v n); [done | done | done |]. lia. }
  split; [exact Hrun |].
  assert (Hnone : ∀ r w' out, do_POST w = (r, w') →
            wfile w' = wfile w ++ headers_buffer w ++ out → out = []).
  { intros r w' out Hrun' Hsent. rewrite Hrun in Hrun'. injection Hrun' as _ <-.
    by apply (sent_nothing w w out eq_refl). }
  split; [exact Hnone |].
  intros code body (r & w' & out & Hrun' & Hsent & Hst & _).
  rewrite (Hnone r w' out Hrun' Hsent) in Hst. discriminate Hst.
Qed.

Lemma upload_length_below_minus_one_raises_witness :
  do_POST upload_minus_two = (Raise ValueError, upload_minus_two) ∧
  (∀ r w' out, do_POST upload_minus_two = (r, w') →
     wfile w' = wfile upload_minus_two ++ headers_buffer upload_minus_two ++ out →
     out = []) ∧
  (∀ code body, ¬ answers upload_minus_two code body).
Proof.
  apply (upload_length_below_minus_one_raises upload_minus_two "-2" (-2));
    [reflexivity | reflexivity | reflexivity | lia].
Defined.

(** *** The stamp determines the second *)
















(** ** More on the store *)



(** *** Identifiers *)

Lemma rowid_not_taken_not_in (t : table) (r : row) (n : Z) :
  rowid_taken t r = false →
  rowid_of (definition t) r = Integer n →
  ¬ In (rowid_of (definition t) r) (map (rowid_of (definition t)) (rows t)).
Proof.
  intros Htaken Hr Hin. apply in_map_iff in Hin as (r' & Heq & Hin).
  unfold rowid_taken in Htaken.
  assert (Hex : existsb (λ r', value_eqb (rowid_of (definition t) r')
                                 (rowid_of (definition t) r)) (rows t) = true).
  { apply existsb_exists. exists r'. split; [done |].
    rewrite Heq, Hr. simpl. apply Z.eqb_refl. }
  by rewrite Hex in Htaken.
Qed.

Lemma stored_id_null {N : Numerics} (clock : string) (a : list (string * value)) :
  given "id" a = Null →
  stored clock a (mkColumn "id" "INTEGER" false true true NoDefault) = Null.
Proof.
  intros Hg. rewrite stored_given by reflexivity.
  change (given (col_name _) a) with (given "id" a). by rewrite Hg.
Qed.

Lemma accepted_row_rowid {N : Numerics} (db : gmap string table) (name : string)
    (t : table) (clock : string) (a : list (string * value)) (r : row) :
  schema_ok db →
  db !! name = Some t →
  fill_rowid (assignable_rowid t) (columns (definition t))
    (map (stored clock a) (columns (definition t))) = Ok r →
  ∃ n, rowid_of (definition t) r = Integer n ∧
       (given "id" a = Null → n = next_rowid t).
Proof.
  intros Hok Ht Hfill.
  destruct (Hok name t Ht) as [[_ Hd] | [_ Hd]]; rewrite Hd in *.
  - apply fill_rowid_churches in Hfill as (n & -> & Hn). exists n.
    split; [done |]. intros Hg. by apply assignable_rowid_ok, Hn, stored_id_null.
  - apply fill_rowid_reports in Hfill as (n & -> & Hn). exists n.
    split; [done |]. intros Hg. by apply assignable_rowid_ok, Hn, stored_id_null.
Qed.

Lemma with_table_rowids_distinct (name : string) (d : table_def)
    (db : gmap string table) :
  rowids_distinct db → rowids_distinct (with_table name d db).
Proof.
  intros H k t Hk.
  apply with_table_lookup in Hk as [Hk | (_ & _ & ->)]; [by apply (H k) |].
  simpl. apply NoDup_nil_2.
Qed.

(** X11. In every state of the store the identifiers are what the schema
    declares them to be, an integer primary key: every row of either table
    has an integer id, and no two rows of a table have the same. *)
Theorem identifiers_are_unique {N : Numerics} (strict : bool)
    (db : gmap string table) :
  reachable strict db →
  rowids_ok db ∧ rowids_distinct db.
Proof.
  intros Hr. split; [by apply (reachable_rowids_ok strict) |].
  induction Hr as [| db db' Hr IH Hs | db db' clock enforce name a Hr IH _ Hi].
  - intros name t H. by rewrite lookup_empty in H.
  - rewrite setup_database_run in Hs. injection Hs as <-.
    by apply with_table_rowids_distinct, with_table_rowids_distinct.
  - pose proof (reachable_schema_ok strict db Hr) as Hok.
    apply insert_inv in Hi as (t & r & Ht & Hfill & _ & Htaken & _ & seq & ->).
    intros k t' Hk. destruct (decide (name = k)) as [-> | Hne].
    + rewrite lookup_insert_eq in Hk. injection Hk as <-. simpl.
      rewrite map_app. simpl.
      destruct (accepted_row_rowid db k t clock a r Hok Ht Hfill) as (n & Hn & _).
      apply NoDup_app. split; [by apply (IH k) |]. split.
      * intros x Hx Hx'. apply list_elem_of_singleton in Hx' as ->.
        apply list_elem_of_In in Hx.
        by apply (rowid_not_taken_not_in t r n).
      * apply NoDup_singleton.
    + rewrite lookup_insert_ne in Hk by done. by apply (IH k).
Qed.

Lemma identifiers_are_unique_witness :
  rowids_ok store_with_church ∧ rowids_distinct store_with_church.
Proof.
  apply (identifiers_are_unique true store_with_church).
  apply (reach_insert true fresh_store store_with_church
           "2024-03-07 09:05:00" true "churches" a_church);
    [| reflexivity | reflexivity].
  apply (reach_setup true ∅ fresh_store); [apply reach_new | reflexivity].
Defined.



(** *** Required and defaulted columns *)

(** The fields of a Church row, by the columns. *)
Lemma churches_row_fields (n : Z) (f : column → value) (r : row) :
  r = Integer n :: map f (tail (columns churches_def)) →
  field churches_def "name" r
  = f (mkColumn "name" "TEXT" true false false NoDefault) ∧
  field churches_def "city" r
  = f (mkColumn "city" "TEXT" true false false NoDefault) ∧
  field churches_def "pastor" r
  = f (mkColumn "pastor" "TEXT" true false false NoDefault) ∧
  field churches_def "created_at" r
  = f (mkColumn "created_at" "TIMESTAMP" false false false CurrentTimestamp).
Proof. intros ->. repeat split. Qed.

Lemma churches_row_not_null (n : Z) (f : column → value) :
  not_null_violation (columns churches_def)
    (Integer n :: map f (tail (columns churches_def))) = None →
  is_null (f (mkColumn "name" "TEXT" true false false NoDefault)) = false ∧
  is_null (f (mkColumn "city" "TEXT" true false false NoDefault)) = false ∧
  is_null (f (mkColumn "pastor" "TEXT" true false false NoDefault)) = false.
Proof.
  unfold churches_def. simpl.
  destruct (is_null (f (mkColumn "name" _ _ _ _ _))); [discriminate |].
  destruct (is_null (f (mkColumn "city" _ _ _ _ _))); [discriminate |].
  destruct (is_null (f (mkColumn "pastor" _ _ _ _ _))); [discriminate |].
  done.
Qed.

(** An accepted Church row: none of the columns declared [NOT NULL] was
    left out or given as [NULL]. *)
Lemma churches_row_names {N : Numerics} (next : result Z) (clock : string)
    (a : list (string * value)) (r : row) :
  fill_rowid next (columns churches_def)
    (map (stored clock a) (columns churches_def)) = Ok r →
  not_null_violation (columns churches_def) r = None →
  is_null (given "name" a) = false ∧
  is_null (given "city" a) = false ∧
  is_null (given "pastor" a) = false ∧
  names_present r = true.
Proof.
  intros Hfill Hnn.
  apply fill_rowid_churches in Hfill as (n & Hr & _).
  destruct (churches_row_fields n _ r Hr) as (H1 & H2 & H3 & _).
  rewrite Hr in Hnn.
  apply churches_row_not_null in Hnn as (N1 & N2 & N3).
  unfold names_present. rewrite H1, H2, H3, N1, N2, N3.
  rewrite is_null_stored in N1, N2, N3 by reflexivity.
  done.
Qed.

Lemma church_rows_names_present {N : Numerics} (strict : bool)
    (db : gmap string table) :
  reachable strict db →
  ∀ r, r ∈ table_rows db "churches" → names_present r = true.
Proof.
  induction 1 as [| db db' Hr IH Hs | db db' clock enforce name a Hr IH _ Hi].
  - intros r H. by apply elem_of_nil in H.
  - intros r. rewrite (setup_database_rows db db' "churches" Hs). apply IH.
  - pose proof (reachable_schema_ok strict db Hr) as Hok.
    apply insert_inv in Hi as (t & r0 & Ht & Hfill & Hnn & _ & _ & seq & ->).
    destruct (Hok name t Ht) as [[-> Hd] | [-> Hd]]; rewrite Hd in *.
    + intros r. rewrite table_rows_insert_eq. simpl. intros Hin.
      apply elem_of_app in Hin as [Hin | Hin].
      * apply IH. by rewrite (table_rows_lookup db "churches" t).
      * apply list_elem_of_singleton in Hin as ->.
        by destruct (churches_row_names _ _ _ _ Hfill Hnn) as (_ & _ & _ & H).
    + intros r. rewrite table_rows_insert_ne by done. apply IH.
Qed.

(** A registration goes in whatever the three names are, if only they
    are there and the table has a rowid left, with a phone or without.  The
    values are stored as a [TEXT] column holds them. *)
Lemma insert_church_values {N : Numerics} (strict : bool) (db : gmap string table)
    (clock : string) (enforce : bool) (name city pastor phone : value)
    (t : table) :
  reachable strict db →
  db !! "churches" = Some t →
  sequence t < 2 ^ 63 - 1 →
  (∀ r m, r ∈ rows t → field churches_def "id" r = Integer m → m < 2 ^ 63 - 1) →
  is_null name = false → is_null city = false → is_null pastor = false →
  unbindable name = false → unbindable city = false →
  unbindable pastor = false → unbindable phone = false →
  In ":"%char (list_ascii_of_string clock) →
  ∃ db' n,
    insert clock enforce "churches"
      [("name", name); ("city", city); ("pastor", pastor); ("phone", phone)] db
    = Ok db' ∧
    table_rows db' "churches"
    = table_rows db "churches" ++
      [[Integer n; apply_affinity TextAff name; apply_affinity TextAff city;
        apply_affinity TextAff pastor; apply_affinity TextAff phone;
        Text clock]].
Proof.
  intros Hr Ht Hseq Hrows H1 H2 H3 B1 B2 B3 B4 Hclock.
  pose proof (reachable_schema_ok strict db Hr) as Hok.
  pose proof (reachable_rowids_ok strict db Hr) as Hids.
  assert (Hd : definition t = churches_def).
  { destruct (Hok _ _ Ht) as [[_ H] | [H _]]; [done | discriminate]. }
  set (a := [("name", name); ("city", city); ("pastor", pastor); ("phone", phone)]).
  set (r := [Integer (next_rowid t); apply_affinity TextAff name;
             apply_affinity TextAff city; apply_affinity TextAff pastor;
             apply_affinity TextAff phone;
             apply_affinity NumericAff (Text clock)]).
  assert (Hroom : assignable_rowid t = Ok (next_rowid t)).
  { unfold assignable_rowid. rewrite has_room_intro; [done | done |].
    rewrite Hd. exact Hrows. }
  assert (Hbind : existsb unbindable (map snd a) = false).
  { unfold a. cbn [map snd existsb]. by rewrite B1, B2, B3, B4. }
  assert (Hfree : rowid_taken t r = false).
  { apply next_rowid_free; [intros r' Hin; by apply (Hids "churches" t) |].
    by rewrite Hd. }
  assert (Hnn : not_null_violation (columns churches_def) r = None).
  { unfold r, churches_def.
    cbn [not_null_violation columns col_not_null col_name andb is_null].
    by rewrite !is_null_apply_affinity, H1, H2, H3. }
  eexists. exists (next_rowid t). split.
  - unfold insert. rewrite Ht, Hd.
    change (unknown_column churches_def a) with (@None string).
    cbv beta iota. rewrite Hbind, Hroom.
    change (fill_rowid (Ok (next_rowid t)) (columns churches_def)
              (map (stored clock a) (columns churches_def)))
      with (Ok r).
    unfold mbind, result_bind. rewrite Hnn, Hfree.
    change (foreign_keys churches_def) with (@nil foreign_key).
    cbn [forallb negb]. rewrite andb_false_r. reflexivity.
  - rewrite table_rows_insert_eq. simpl rows.
    rewrite (table_rows_lookup db "churches" t) by done.
    unfold r. by rewrite (numeric_affinity_timestamp clock Hclock).
Qed.

(** X13. A Church needs its name, city and pastor and nothing else: in
    every state of the store every Church row has the three, an insert
    that leaves one of them out or [NULL] is rejected, and a registration
    that gives the three as texts is accepted with a phone or without, on
    any connection, as long as the table has a rowid left; the row gets an
    id and the time of the insert as [created_at].  A name given as an
    integer is accepted as well and stored as its decimal text. *)
Theorem church_needs_name_city_pastor {N : Numerics} (strict : bool)
    (db : gmap string table) :
  reachable strict db →
  (∀ r, r ∈ table_rows db "churches" → names_present r = true) ∧
  (∀ clock enforce a,
     is_null (given "name" a) || is_null (given "city" a)
       || is_null (given "pastor" a) = true →
     ∃ e, insert clock enforce "churches" a db = Raise e) ∧
  (∀ clock enforce name city pastor phone t,
     db !! "churches" = Some t →
     sequence t < 2 ^ 63 - 1 →
     (∀ r m, r ∈ rows t → field churches_def "id" r = Integer m → m < 2 ^ 63 - 1) →
     phone = Null ∨ (∃ s, phone = Text s) →
     In ":"%char (list_ascii_of_string clock) →
     ∃ db' n,
       insert clock enforce "churches"
         [("name", Text name); ("city", Text city); ("pastor", Text pastor);
          ("phone", phone)] db
       = Ok db' ∧
       table_rows db' "churches"
       = table_rows db "churches" ++
         [[Integer n; Text name; Text city; Text pastor; phone; Text clock]]) ∧
  (∀ clock enforce k city pastor t,
     db !! "churches" = Some t →
     sequence t < 2 ^ 63 - 1 →
     (∀ r m, r ∈ rows t → field churches_def "id" r = Integer m → m < 2 ^ 63 - 1) →
     - 2 ^ 63 ≤ k ≤ 2 ^ 63 - 1 →
     In ":"%char (list_ascii_of_string clock) →
     ∃ db' n,
       insert clock enforce "churches"
         [("name", Integer k); ("city", Text city); ("pastor", Text pastor);
          ("phone", Null)] db
       = Ok db' ∧
       table_rows db' "churches"
       = table_rows db "churches" ++
         [[Integer n; Text (NilZero.string_of_int (Z.to_int k)); Text city;
           Text pastor; Null; Text clock]]).
Proof.
  intros Hr.
  pose proof (reachable_schema_ok strict db Hr) as Hok.
  split; [by apply (church_rows_names_present strict) |]. split; [| split].
  - intros clock enforce a Hnull.
    destruct (insert clock enforce "churches" a db) as [db' |] eqn:Hi;
      [| by eexists].
    exfalso.
    apply insert_inv in Hi as (t & r & Ht & Hfill & Hnn & _).
    assert (Hd : definition t = churches_def).
    { destruct (Hok _ _ Ht) as [[_ H] | [H _]]; [done | discriminate]. }
    rewrite Hd in *.
    destruct (churches_row_names _ _ _ _ Hfill Hnn) as (H1 & H2 & H3 & _).
    by rewrite H1, H2, H3 in Hnull.
  - intros clock enforce name city pastor phone t Ht Hseq Hrows Hphone Hclock.
    destruct (insert_church_values strict db clock enforce
                (Text name) (Text city) (Text pastor) phone t)
      as (db' & n & Hi & Hrow); auto.
    { by destruct Hphone as [-> | [s ->]]. }
    exists db', n. split; [exact Hi |]. rewrite Hrow.
    by destruct Hphone as [-> | [s ->]].
  - intros clock enforce k city pastor t Ht Hseq Hrows Hk Hclock.
    destruct (insert_church_values strict db clock enforce
                (Integer k) (Text city) (Text pastor) Null t)
      as (db' & n & Hi & Hrow); auto.
    { simpl. apply orb_false_intro; apply Z.ltb_ge.
      - unfold int64_min. lia.
      - unfold int64_max. lia. }
    exists db', n. split; [exact Hi |]. by rewrite Hrow.
Qed.

Lemma church_needs_name_city_pastor_witness :
  (∀ r, r ∈ table_rows store_with_church "churches" → names_present r = true) ∧
  (∀ clock enforce a,
     is_null (given "name" a) || is_null (given "city" a)
       || is_null (given "pastor" a) = true →
     ∃ e, insert clock enforce "churches" a store_with_church = Raise e) ∧
  (∀ clock enforce name city pastor phone t,
     store_with_church !! "churches" = Some t →
     sequence t < 2 ^ 63 - 1 →
     (∀ r m, r ∈ rows t → field churches_def "id" r = Integer m → m < 2 ^ 63 - 1) →
     phone = Null ∨ (∃ s, phone = Text s) →
     In ":"%char (list_ascii_of_string clock) →
     ∃ db' n,
       insert clock enforce "churches"
         [("name", Text name); ("city", Text city); ("pastor", Text pastor);
          ("phone", phone)] store_with_church
       = Ok db' ∧
       table_rows db' "churches"
       = table_rows store_with_church "churches" ++
         [[Integer n; Text name; Text city; Text pastor; phone; Text clock]]) ∧
  (∀ clock enforce k city pastor t,
     store_with_church !! "churches" = Some t →
     sequence t < 2 ^ 63 - 1 →
     (∀ r m, r ∈ rows t → field churches_def "id" r = Integer m → m < 2 ^ 63 - 1) →
     - 2 ^ 63 ≤ k ≤ 2 ^ 63 - 1 →
     In ":"%char (list_ascii_of_string clock) →
     ∃ db' n,
       insert clock enforce "churches"
         [("name", Integer k); ("city", Text city); ("pastor", Text pastor);
          ("phone", Null)] store_with_church
       = Ok db' ∧
       table_rows db' "churches"
       = table_rows store_with_church "churches" ++
         [[Integer n; Text (NilZero.string_of_int (Z.to_int k)); Text city;
           Text pastor; Null; Text clock]]).
Proof.
  apply (church_needs_name_city_pastor true store_with_church).
  apply (reach_insert true fresh_store store_with_church
           "2024-03-07 09:05:00" true "churches" a_church);
    [| reflexivity | reflexivity].
  apply (reach_setup true ∅ fresh_store); [apply reach_new | reflexivity].
Defined.

(** X14. A Report needs its church reference and its month: in every state
    of the store every Report row has both, and an insert that leaves one
    of them out or [NULL] is rejected, on any connection. *)
Theorem report_needs_church_and_month {N : Numerics} (strict : bool)
    (db : gmap string table) :
  reachable strict db →
  (∀ r, r ∈ table_rows db "reports" → reference_present r = true) ∧
  (∀ clock enforce a,
     is_null (given "church_id" a) || is_null (given "month" a) = true →
     ∃ e, insert clock enforce "reports" a db = Raise e).
Proof.
  intros Hr. split.
  - induction Hr as [| db db' Hr IH Hs | db db' clock enforce name a Hr IH _ Hi].
    + intros r H. by apply elem_of_nil in H.
    + intros r. rewrite (setup_database_rows db db' "reports" Hs). apply IH.
    + pose proof (reachable_schema_ok strict db Hr) as Hok.
      apply insert_inv in Hi as (t & r0 & Ht & Hfill & Hnn & _ & _ & seq & ->).
      destruct (Hok name t Ht) as [[-> Hd] | [-> Hd]]; rewrite Hd in *.
      * intros r. rewrite table_rows_insert_ne by done. apply IH.
      * intros r. rewrite table_rows_insert_eq. simpl. intros Hin.
        apply elem_of_app in Hin as [Hin | Hin].
        -- apply IH. by rewrite (table_rows_lookup db "reports" t).
        -- apply list_elem_of_singleton in Hin as ->.
           by destruct (reports_row_accepted _ _ _ _ Hfill Hnn)
             as (_ & _ & _ & _ & _ & _ & _ & _ & H & _).
  - pose proof (reachable_schema_ok strict db Hr) as Hok.
    intros clock enforce a Hnull.
    destruct (insert clock enforce "reports" a db) as [db' |] eqn:Hi;
      [| by eexists].
    exfalso.
    apply insert_inv in Hi as (t & r & Ht & Hfill & Hnn & _).
    assert (Hd : definition t = reports_def).
    { destruct (Hok _ _ Ht) as [[H _] | [_ H]]; [discriminate | done]. }
    rewrite Hd in *.
    destruct (reports_row_accepted _ _ _ _ Hfill Hnn) as (_ & _ & _ & H1 & H2 & _).
    by rewrite H1, H2 in Hnull.
Qed.

Lemma report_needs_church_and_month_witness :
  (∀ r, r ∈ table_rows store_with_church "reports" →
        reference_present r = true) ∧
  (∀ clock enforce a,
     is_null (given "church_id" a) || is_null (given "month" a) = true →
     ∃ e, insert clock enforce "reports" a store_with_church = Raise e).
Proof.
  apply (report_needs_church_and_month true store_with_church).
  apply (reach_insert true fresh_store store_with_church
           "2024-03-07 09:05:00" true "churches" a_church);
    [| reflexivity | reflexivity].
  apply (reach_setup true ∅ fresh_store); [apply reach_new | reflexivity].
Defined.



